(** * RPerft perft debugger: [perftdebug.py] and [perftdebugger.py]

    A shallow embedding of the two scripts that bisect a perft divergence
    between a chess engine under test and a reference engine, and the
    properties of their session runner ([_run]), comparator (the body of
    [_debug] after the two runs) and bisection driver ([debug]).

    The two scripts share the [DebugResult] enum and the comparator text;
    they differ in the line pattern of the parser, in the position request
    and in how the executables are named.  Shared code is embedded once,
    the rest lives in [Module PerftDebug] and [Module PerftDebugger]. *)

From Stdlib Require Import ZArith Ascii String List Numbers.DecimalString.
From stdpp Require Import base decidable list strings gmap.

Open Scope string_scope.
Open Scope list_scope.

Set Warnings "-clear-no-such-hyp".

(** ** Python values and exceptions *)

(** The exceptions the embedded code can raise.  [OSError] stands for a
    failure of [Popen] or of the pipe. *)
Inductive PyExc : Type :=
| ValueError
| KeyError
| TypeError
| AttributeError
| OSError.

Inductive PyResult (A : Type) : Type :=
| Ok (a : A)
| Raise (e : PyExc).
Arguments Ok {A} a.
Arguments Raise {A} e.

(** What a dict value can be: the annotation of [_run] promises [int],
    the parser stores [str]. *)
Inductive PyVal : Type :=
| PyInt (z : Z)
| PyStr (s : string).

#[global] Instance PyVal_eq_dec : EqDecision PyVal.
Proof. solve_decision. Defined.

#[global] Instance PyExc_eq_dec : EqDecision PyExc.
Proof. solve_decision. Defined.

(** ** Strings *)

(** [s.split(sep)] for a one-character separator: a cut at every
    occurrence, so the result has one more piece than [s] has separators. *)
Fixpoint py_split (sep : ascii) (s : string) : list string :=
  match s with
  | EmptyString => [""]
  | String c rest =>
      if Ascii.eqb c sep then "" :: py_split sep rest
      else match py_split sep rest with
           | piece :: pieces => String c piece :: pieces
           | [] => [String c ""]
           end
  end.

(** [sep.join(l)] *)
Definition py_join (sep : string) (l : list string) : string :=
  String.concat sep l.

(** [str(n)] for an [int] *)
Definition py_str_of_int (n : Z) : string :=
  NilZero.string_of_int (Z.to_int n).

(** Number of occurrences of character [c] in [s]. *)
Fixpoint count_char (c : ascii) (s : string) : nat :=
  match s with
  | EmptyString => 0
  | String a rest => (if Ascii.eqb a c then 1 else 0) + count_char c rest
  end.

Definition colon : ascii := ":"%char.
Definition newline : ascii := "010"%char.
Definition NL : string := String newline "".

(** Character classes of the two patterns. *)
Definition in_range (lo hi c : ascii) : bool :=
  (nat_of_ascii lo <=? nat_of_ascii c)%nat && (nat_of_ascii c <=? nat_of_ascii hi)%nat.

Definition is_file (c : ascii) : bool := in_range "a" "h" c.
Definition is_rank (c : ascii) : bool := in_range "1" "8" c.

(** ** Dicts

    A Python dict keeps its keys unique and in insertion order:
    an association list without duplicate keys. *)
Definition PyDict : Type := list (string * PyVal).

Definition dict_keys (d : PyDict) : list string := map fst d.

Fixpoint dict_get (d : PyDict) (k : string) : option PyVal :=
  match d with
  | [] => None
  | (k', v) :: rest => if String.eqb k' k then Some v else dict_get rest k
  end.

(** [d[k] = v]: an existing key keeps its place, a new one goes last. *)
Fixpoint dict_set (d : PyDict) (k : string) (v : PyVal) : PyDict :=
  match d with
  | [] => [(k, v)]
  | (k', v') :: rest =>
      if String.eqb k' k then (k', v) :: rest else (k', v') :: dict_set rest k v
  end.

Fixpoint mem_string (k : string) (l : list string) : bool :=
  match l with
  | [] => false
  | k' :: rest => String.eqb k' k || mem_string k rest
  end.

Fixpoint nodup_keys (l : list string) : bool :=
  match l with
  | [] => true
  | k :: rest => negb (mem_string k rest) && nodup_keys rest
  end.

(** The dict invariant: no key occurs twice. *)
Definition dict_wf (d : PyDict) : bool := nodup_keys (dict_keys d).

(** [set(d.keys())] *)
Definition key_set (d : PyDict) : gset string := list_to_set (dict_keys d).

(** ** The parse loop of [_run]

<<
    result = {}
    for line in response:
        if match(PATTERN, line):
            move, node_count = line.split(":")
            result[move] = node_count
    return result
>>
    [line_matches] is the test [match(PATTERN, line)] of the script at
    hand.  Unpacking a split that has not exactly two pieces raises
    [ValueError]. *)
Section ParseLoop.
Variable line_matches : string -> bool.

Fixpoint parse_lines (response : list string) (result : PyDict)
  : PyResult PyDict :=
  match response with
  | [] => Ok result
  | line :: rest =>
      if line_matches line then
        match py_split colon line with
        | [move; node_count] =>
            parse_lines rest (dict_set result move (PyStr node_count))
        | _ => Raise ValueError
        end
      else parse_lines rest result
  end.

(** [p.stdout.read().split("\n")] followed by the loop. *)
Definition parse_response (out : string) : PyResult PyDict :=
  parse_lines (py_split newline out) [].
End ParseLoop.

(** ** The enum, the interpreter state and the effects

<<
    class DebugResult(Enum):
        OK = 0
        MISSING_MOVE = 1
        EXCESS_MOVE = 2
        DISAGREE_MOVE = 3
        COUNT_MISMATCH = 4
>>
    The five members are singletons shared by every use of the enum. *)
Inductive DebugResult : Type :=
| OK
| MISSING_MOVE
| EXCESS_MOVE
| DISAGREE_MOVE
| COUNT_MISMATCH.

#[global] Instance DebugResult_eq_dec : EqDecision DebugResult.
Proof. solve_decision. Defined.

(** What [load] is given: a set of moves, or one move. *)
Inductive Payload : Type :=
| PMoves (s : gset string)
| PMove (k : string).

(** One subprocess conversation: the executable and the lines written to
    its standard input, in order. *)
Record Query : Type := mkQuery { q_path : string; q_stdin : list string }.

(** The engines are outside the program: what a process prints (or the
    failure to run it) may depend on the conversations held before. *)
Definition Oracle : Type := list Query -> Query -> PyResult string.

(** The argument of a [print] call, by content: the set payload has no
    fixed rendering, so the interpolated values are kept as they are.
    - [ReportOK r rest]: [print(f"{r}{rest}")] of the agreement branch;
    - [ReportVariation r payload variation]:
      [print(f"{r}: {payload}\nVariation: {variation}")];
    - [ReportFailed]: [print("Debug failed to find variation")]. *)
Inductive Report : Type :=
| ReportOK (r : DebugResult) (rest : string)
| ReportVariation (r : DebugResult) (payload : Payload) (variation : string)
| ReportFailed.

(** The state the scripts act on: the engines, the conversations held so
    far, the [payload] attribute of each enum member (absent until the
    first [load]) and what was printed. *)
Record State : Type := mkState {
  engines : Oracle;
  spawned : list Query;
  payload_of : DebugResult -> option Payload;
  printed : list Report
}.

Definition M (A : Type) : Type := State -> PyResult A * State.

Definition ret {A} (a : A) : M A := fun s => (Ok a, s).
Definition raise {A} (e : PyExc) : M A := fun s => (Raise e, s).
Definition bind {A B} (c : M A) (k : A -> M B) : M B :=
  fun s => match c s with
           | (Ok a, s') => k a s'
           | (Raise e, s') => (Raise e, s')
           end.
Definition lift {A} (r : PyResult A) : M A := fun s => (r, s).

Declare Scope py_scope.
Delimit Scope py_scope with py.
Notation "x <- c ;; k" := (bind c (fun x => k))
  (at level 100, c at next level, right associativity) : py_scope.
Open Scope py_scope.

(** [print(...)] *)
Definition print (r : Report) : M unit :=
  fun s => (Ok tt, mkState (engines s) (spawned s) (payload_of s) (printed s ++ [r])).

(** The state once conversation [q] has been held. *)
Definition asked (s : State) (q : Query) : State :=
  mkState (engines s) (spawned s ++ [q]) (payload_of s) (printed s).

(** [Popen(path, ...)], the writes, the flush and [p.stdout.read()]. *)
Definition converse (path : string) (lines : list string) : M string :=
  fun s => let q := mkQuery path lines in (engines s (spawned s) q, asked s q).

(** <<
    def load(self, payload):
        self.payload = payload
        return self
>> *)
Definition load (self : DebugResult) (payload : Payload) : M DebugResult :=
  fun s => (Ok self,
            mkState (engines s) (spawned s)
              (fun r => if decide (r = self) then Some payload else payload_of s r)
              (printed s)).

(** [debug_result.payload] *)
Definition get_payload (self : DebugResult) : M Payload :=
  fun s => match payload_of s self with
           | Some p => (Ok p, s)
           | None => (Raise AttributeError, s)
           end.

(** ** The comparator: the body of [_debug] after the two runs

<<
    egn_moves, sf_moves = set(chess_perft.keys()), set(stockfish_perft.keys())
    if egn_moves != sf_moves:
        if len(egn_moves) > len(sf_moves):
            return DebugResult.EXCESS_MOVE.load(egn_moves - sf_moves)
        elif len(sf_moves) > len(egn_moves):
            return DebugResult.MISSING_MOVE.load(sf_moves - egn_moves)
        else:
            return DebugResult.DISAGREE_MOVE.load(egn_moves ^ sf_moves)
    for k, v in chess_perft.items():
        if stockfish_perft[k] != v:
            return DebugResult.COUNT_MISMATCH.load(k)
    return DebugResult.OK
>> *)
Definition sym_diff (a b : gset string) : gset string := (a ∖ b) ∪ (b ∖ a).

Fixpoint scan_counts (items : list (string * PyVal)) (stockfish_perft : PyDict)
  : M DebugResult :=
  match items with
  | [] => ret OK
  | (k, v) :: rest =>
      match dict_get stockfish_perft k with
      | None => raise KeyError
      | Some v' =>
          if bool_decide (v' ≠ v) then load COUNT_MISMATCH (PMove k)
          else scan_counts rest stockfish_perft
      end
  end.

Definition _debug_compare (chess_perft stockfish_perft : PyDict) : M DebugResult :=
  let egn_moves := key_set chess_perft in
  let sf_moves := key_set stockfish_perft in
  if bool_decide (egn_moves ≠ sf_moves) then
    if (size sf_moves <? size egn_moves)%nat then
      load EXCESS_MOVE (PMoves (egn_moves ∖ sf_moves))
    else if (size egn_moves <? size sf_moves)%nat then
      load MISSING_MOVE (PMoves (sf_moves ∖ egn_moves))
    else
      load DISAGREE_MOVE (PMoves (sym_diff egn_moves sf_moves))
  else scan_counts chess_perft stockfish_perft.

(** A quiet start: nothing run, nothing loaded, nothing printed. *)
Definition init_state (o : Oracle) : State := mkState o [] (fun _ => None) [].

Definition silent : Oracle := fun _ _ => Ok "".

(** ** [range(n, 0, -1)] *)

Fixpoint countdown (n : nat) : list Z :=
  match n with
  | O => []
  | S m => Z.of_nat n :: countdown m
  end.

(** [range(n, 0, -1)]: [n, n-1, ..., 1], empty when [n <= 0]. *)
Definition py_range_down (n : Z) : list Z := countdown (Z.to_nat n).

(** ** The loop of [debug]

<<
    moves = []
    for d in range(DEPTH, 0, -1):
        debug_result = _debug(..., d, fen, moves)
        if debug_result is DebugResult.OK:
            print(...)
            return
        if debug_result is DebugResult.COUNT_MISMATCH:
            moves.append(debug_result.payload)
            continue
        variation = fen + " " + " ".join(moves)
        print(f"{debug_result}: {debug_result.payload}\nVariation: {variation}")
        return
    print("Debug failed to find variation")
>>
    [step d moves] is the call of [_debug] of the script at hand and
    [ok_rest] what its agreement line prints after the enum member.  The
    list [moves] holds strings: a payload that is not one move would make
    the next [" ".join(moves)] raise [TypeError], which is raised here at
    the append. *)
Section Driver.
Variable step : Z -> list string -> M DebugResult.
Variable fen : string.
Variable ok_rest : string.

Fixpoint debug_loop (ds : list Z) (moves : list string) : M unit :=
  match ds with
  | [] => print ReportFailed
  | d :: rest =>
      debug_result <- step d moves;;
      match debug_result with
      | OK => print (ReportOK debug_result ok_rest)
      | COUNT_MISMATCH =>
          payload <- get_payload debug_result;;
          match payload with
          | PMove k => debug_loop rest (moves ++ [k])
          | PMoves _ => raise TypeError
          end
      | _ =>
          let variation := fen +:+ " " +:+ py_join " " moves in
          payload <- get_payload debug_result;;
          print (ReportVariation debug_result payload variation)
      end
  end.
End Driver.

(** [moves = " ".join(moves)] when [moves] is a list; [None] is left as
    it is and the f-string writes it as [None]. *)
Definition format_moves (moves : option (list string)) : string :=
  match moves with
  | Some l => py_join " " l
  | None => "None"
  end.

Definition go_perft (depth : Z) : string := "go perft " +:+ py_str_of_int depth +:+ NL.
Definition quit : string := "quit" +:+ NL.

Definition ENGINE_PATH : string := "./target/debug/chess".
Definition STOCKFISH_PATH : string := "stockfish".
Definition STARTING_FEN : string :=
  "rnbqkbnr/pppppppp/8/8/8/8/PPPPPPPP/RNBQKBNR w KQkq - 0 1".

(** The conversation of [_run], for the pattern, executable and input
    lines of the script at hand:
<<
    p = Popen(path, stdin=PIPE, stdout=PIPE, encoding="UTF8")
    ... p.stdin.write(...) ...
    p.stdin.flush()
    response = p.stdout.read().split("\n")
    ... the parse loop ...
>> *)
Definition session (line_matches : string -> bool) (path : string)
    (lines : list string) : M PyDict :=
  out <- converse path lines;;
  lift (parse_response line_matches out).

(** What the engines answer to query [q] in state [s]. *)
Definition response_of (s : State) (q : Query) : PyResult string :=
  engines s (spawned s) q.

(** ** [perftdebug.py] *)
Module PerftDebug.

(** [match("^[a-h][1-8]{2}", line)]: the [{2}] repeats the rank class,
    so the pattern asks for a file letter and two rank digits. *)
Definition line_matches (line : string) : bool :=
  match line with
  | String c1 (String c2 (String c3 _)) => is_file c1 && is_rank c2 && is_rank c3
  | _ => false
  end.

(** [f"position fen {fen} moves {moves}\n"] *)
Definition position (fen : string) (moves : option (list string)) : string :=
  "position fen " +:+ fen +:+ " moves " +:+ format_moves moves +:+ NL.

(** The three writes of [_run]. *)
Definition request (depth : Z) (fen : string) (moves : option (list string))
  : list string :=
  [position fen moves; go_perft depth; quit].

Definition _run (path : string) (depth : Z) (fen : string)
    (moves : option (list string)) : M PyDict :=
  session line_matches path (request depth fen moves).

Definition _debug (ref eng : string) (depth : Z) (fen : string)
    (moves : option (list string)) : M DebugResult :=
  chess_perft <- _run eng depth fen moves;;
  stockfish_perft <- _run ref depth fen moves;;
  _debug_compare chess_perft stockfish_perft.

(** [debug] calls [int(depth)] on a [str].  [int] is a builtin of the
    interpreter, not code of the script: it is the parameter [py_int],
    and the script is embedded for every such function. *)
Definition debug (py_int : string -> PyResult Z) (depth fen ref eng : string)
  : M unit :=
  n <- lift (py_int depth);;
  debug_loop (fun d moves => _debug ref eng d fen (Some moves)) fen
    (" " +:+ fen +:+ " depth " +:+ depth) (py_range_down n) [].

End PerftDebug.

(** ** [perftdebugger.py] *)
Module PerftDebugger.

(** [match("^[a-h]{1}[1-8]{1}", line)] *)
Definition line_matches (line : string) : bool :=
  match line with
  | String c1 (String c2 _) => is_file c1 && is_rank c2
  | _ => false
  end.

Definition path_of (engine : string) : string :=
  if String.eqb engine "stockfish" then STOCKFISH_PATH else ENGINE_PATH.

(** The position line, written only when [fen] is given; the engine
    under test is sent the moves without the [moves] keyword. *)
Definition position (engine : string) (fen : option string)
    (moves : option (list string)) : list string :=
  match fen with
  | Some fen =>
      if String.eqb engine "stockfish" then
        ["position fen " +:+ fen +:+ " moves " +:+ format_moves moves +:+ NL]
      else
        ["position fen " +:+ fen +:+ " " +:+ format_moves moves +:+ NL]
  | None => []
  end.

(** The writes of [_run]. *)
Definition request (engine : string) (depth : Z) (fen : option string)
    (moves : option (list string)) : list string :=
  position engine fen moves ++ [go_perft depth; quit].

Definition _run (engine : string) (depth : Z) (fen : option string)
    (moves : option (list string)) : M PyDict :=
  session line_matches (path_of engine) (request engine depth fen moves).

Definition _debug (depth : Z) (fen : option string)
    (moves : option (list string)) : M DebugResult :=
  chess_perft <- _run "engine" depth fen moves;;
  stockfish_perft <- _run "stockfish" depth fen moves;;
  _debug_compare chess_perft stockfish_perft.

Definition debug (depth : Z) (fen : option string) : M unit :=
  let fen := match fen with None => STARTING_FEN | Some fen => fen end in
  debug_loop (fun d moves => _debug d (Some fen) (Some moves)) fen ""
    (py_range_down depth) [].

End PerftDebugger.

(** ** Notions the properties are stated with *)

(** A line the parse loop cannot unpack: it passes the pattern and has no
    colon, or more than one. *)
Definition unsplittable (line_matches : string -> bool) (line : string) : Prop :=
  line_matches line = true /\ count_char colon line <> 1.

(** An engine that prints [out] whatever it is asked. *)
Definition prints (out : string) : Oracle := fun _ _ => Ok out.

(** The verdict as the caller of the comparator sees it: the member
    returned, with the payload attribute it carries right after the call. *)
Definition verdict (tested reference : PyDict) (s : State)
  : PyResult (DebugResult * option Payload) :=
  match _debug_compare tested reference s with
  | (Ok v, s') => Ok (v, payload_of s' v)
  | (Raise e, _) => Raise e
  end.

(** The position request as the specification words it:
    [position fen <FEN-string> moves <move1> <move2> ...], and the same
    with the [moves] clause left out. *)
Definition spec_position (fen : string) (moves : list string) : string :=
  "position fen " +:+ fen +:+ " moves " +:+ py_join " " moves +:+ NL.

Definition spec_position_bare (fen : string) : string :=
  "position fen " +:+ fen +:+ NL.

Definition spec_position_form (fen : string) (moves : list string)
    (line : string) : Prop :=
  line = spec_position fen moves \/ (moves = [] /\ line = spec_position_bare fen).

(** One turn of the loop of [debug] as the engines see it: the depth and
    the moves the two runs are given, and whether the second run took
    place (it does not when the first one raises). *)
Record Turn : Type := mkTurn {
  turn_depth : Z;
  turn_moves : list string;
  turn_both : bool
}.

(** The conversations of one turn: the engine under test first, then the
    reference engine. *)
Definition turn_queries_debug (ref eng fen : string) (t : Turn) : list Query :=
  mkQuery eng (PerftDebug.request (turn_depth t) fen (Some (turn_moves t))) ::
  (if turn_both t
   then [mkQuery ref (PerftDebug.request (turn_depth t) fen (Some (turn_moves t)))]
   else []).

Definition turn_queries_debugger (fen : string) (t : Turn) : list Query :=
  mkQuery ENGINE_PATH
    (PerftDebugger.request "engine" (turn_depth t) (Some fen) (Some (turn_moves t))) ::
  (if turn_both t
   then [mkQuery STOCKFISH_PATH
           (PerftDebugger.request "stockfish" (turn_depth t) (Some fen)
              (Some (turn_moves t)))]
   else []).

Definition move_set_verdict (v : DebugResult) : Prop :=
  v = MISSING_MOVE \/ v = EXCESS_MOVE \/ v = DISAGREE_MOVE.

(** The bisection as a state machine over the depth left and the moves
    so far, [step] being the call of [_debug]: [bisection n moves s turns
    run] says that from state [s], with [n] depths left and the path
    [moves], the machine takes the turns [turns] and ends as [run].
    - With no depth left it prints the failure line.
    - A turn whose call raises ends the run with that exception.
    - A turn whose verdict is [OK] prints the agreement line.
    - A turn whose verdict is [MISSING_MOVE], [EXCESS_MOVE] or
      [DISAGREE_MOVE] prints that verdict, the set it was loaded with
      and the path.
    - A turn whose verdict is [COUNT_MISMATCH] adds the move it was
      loaded with to the path and goes on one depth lower.
    Every turn holds its conversations and prints nothing itself. *)
Section Bisection.
Variable step : Z -> list string -> M DebugResult.
Variables fen ok_rest : string.
Variable queries : Turn -> list Query.

Inductive bisection
  : nat -> list string -> State -> list Turn -> PyResult unit * State -> Prop :=
| bisection_exhausted (moves : list string) (s : State) :
    bisection 0 moves s [] (print ReportFailed s)
| bisection_raised (n : nat) (moves : list string) (s s' : State)
    (e : PyExc) (both : bool) :
    step (Z.of_nat (S n)) moves s = (Raise e, s') ->
    spawned s' = spawned s ++ queries (mkTurn (Z.of_nat (S n)) moves both) ->
    printed s' = printed s ->
    bisection (S n) moves s [mkTurn (Z.of_nat (S n)) moves both] (Raise e, s')
| bisection_agreed (n : nat) (moves : list string) (s s' : State) :
    step (Z.of_nat (S n)) moves s = (Ok OK, s') ->
    spawned s' = spawned s ++ queries (mkTurn (Z.of_nat (S n)) moves true) ->
    printed s' = printed s ->
    bisection (S n) moves s [mkTurn (Z.of_nat (S n)) moves true]
      (print (ReportOK OK ok_rest) s')
| bisection_located (n : nat) (moves : list string) (s s' : State)
    (v : DebugResult) (p : gset string) :
    step (Z.of_nat (S n)) moves s = (Ok v, s') ->
    move_set_verdict v ->
    payload_of s' v = Some (PMoves p) ->
    spawned s' = spawned s ++ queries (mkTurn (Z.of_nat (S n)) moves true) ->
    printed s' = printed s ->
    bisection (S n) moves s [mkTurn (Z.of_nat (S n)) moves true]
      (print (ReportVariation v (PMoves p) (fen +:+ " " +:+ py_join " " moves)) s')
| bisection_descended (n : nat) (moves : list string) (s s' : State)
    (k : string) (turns : list Turn) (run : PyResult unit * State) :
    step (Z.of_nat (S n)) moves s = (Ok COUNT_MISMATCH, s') ->
    payload_of s' COUNT_MISMATCH = Some (PMove k) ->
    spawned s' = spawned s ++ queries (mkTurn (Z.of_nat (S n)) moves true) ->
    printed s' = printed s ->
    bisection n (moves ++ [k]) s' turns run ->
    bisection (S n) moves s (mkTurn (Z.of_nat (S n)) moves true :: turns) run.
End Bisection.

(** A run of [debug] to depth [D], from state [s]: it is a run of the
    bisection from depth [D] and the empty path; it takes at most [D]
    turns, turn [i] (from 0) at depth [D - i] with [i] moves on the path,
    and holds the conversations of those turns; and it ends with an
    exception and nothing printed, or with exactly one printed line: the
    agreement, a move-set verdict with a path of fewer than [D] moves, or
    the failure line after [D] turns. *)
Definition bisection_run (step : Z -> list string -> M DebugResult)
    (fen ok_rest : string) (queries : Turn -> list Query) (D : Z) (s : State)
    (run : PyResult unit * State) : Prop :=
  exists turns : list Turn,
    bisection step fen ok_rest queries (Z.to_nat D) [] s turns run /\
    length turns <= Z.to_nat D /\
    (forall i t, turns !! i = Some t ->
       turn_depth t = (D - Z.of_nat i)%Z /\ length (turn_moves t) = i) /\
    spawned (snd run) = spawned s ++ concat (map queries turns) /\
    match fst run with
    | Raise e => printed (snd run) = printed s /\ turns <> []
    | Ok _ =>
        exists report, printed (snd run) = printed s ++ [report] /\
          ((report = ReportOK OK ok_rest /\ turns <> []) \/
           (exists v p path,
               report = ReportVariation v (PMoves p)
                          (fen +:+ " " +:+ py_join " " path) /\
               move_set_verdict v /\ length path < Z.to_nat D) \/
           (report = ReportFailed /\ length turns = Z.to_nat D))
    end.

(** What a run of the loop of [debug] over [range(n, 0, -1)], entered
    with [moves0], amounts to, [step] being the call of [_debug]: at most
    [n] turns, turn [i] at depth [n - i] with [i] moves added; the
    conversations of those turns and no other; and then either an
    exception, which the last turn raised, and nothing printed, or one
    printed line: the agreement, a move-set verdict with the moves of the
    last turn, or the failure line after all [n] turns. *)
Definition loop_run (step : Z -> list string -> M DebugResult) (n : nat)
    (moves0 : list string) (fen ok_rest : string)
    (queries : Turn -> list Query) (s : State) (run : PyResult unit * State)
  : Prop :=
  exists turns : list Turn,
    spawned (snd run) = spawned s ++ concat (map queries turns) /\
    length turns <= n /\
    (forall i t, turns !! i = Some t ->
       turn_depth t = Z.of_nat (n - i) /\
       length (turn_moves t) = length moves0 + i /\
       (turn_both t = false -> S i = length turns /\ exists e, fst run = Raise e)) /\
    match fst run with
    | Raise e =>
        printed (snd run) = printed s /\
        exists t s', last turns = Some t /\
          fst (step (turn_depth t) (turn_moves t) s') = Raise e
    | Ok _ =>
        exists report, printed (snd run) = printed s ++ [report] /\
          ((report = ReportOK OK ok_rest /\ turns <> []) \/
           (exists v p t,
               report = ReportVariation v (PMoves p)
                          (fen +:+ " " +:+ py_join " " (turn_moves t)) /\
               last turns = Some t /\ move_set_verdict v /\
               length (turn_moves t) < length moves0 + n) \/
           (report = ReportFailed /\ length turns = n))
    end.

(** ** Sample data *)

(** A stand-in for [int] at plain numerals: an optional sign and one to
    4300 digits [0] to [9].  It refuses every other string, among them
    some that [int] reads (blanks around the numeral, underscores between
    digits, the digits of other scripts). *)
Fixpoint read_digits (acc : Z) (digits : list ascii) : option Z :=
  match digits with
  | [] => Some acc
  | c :: rest =>
      if in_range "0" "9" c
      then read_digits (10 * acc + (Z.of_nat (nat_of_ascii c) - 48))%Z rest
      else None
  end.

Definition read_numeral (digits : list ascii) : option Z :=
  if ((1 <=? length digits) && (length digits <=? 4300))%nat
  then read_digits 0 digits else None.

Definition decimal_int (s : string) : PyResult Z :=
  let parsed :=
    match list_ascii_of_string s with
    | "+"%char :: digits => read_numeral digits
    | "-"%char :: digits => Z.opp <$> read_numeral digits
    | digits => read_numeral digits
    end in
  match parsed with
  | Some n => Ok n
  | None => Raise ValueError
  end.

(** Engines that disagree on the count of [e2e4] at every depth. *)
Definition disagreeing : Oracle :=
  fun _ q => if String.eqb (q_path q) STOCKFISH_PATH then Ok "e2e4: 20" else Ok "e2e4: 21".

(** Engines of which the one under test also finds [d2d4]. *)
Definition excessive : Oracle :=
  fun _ q => if String.eqb (q_path q) STOCKFISH_PATH then Ok "e2e4: 20"
             else Ok ("e2e4: 20" +:+ NL +:+ "d2d4: 20").

Definition sample_fen : string := "4k3/8/8/8/8/8/4P3/4K3 w - - 0 1".

Definition dA : PyDict := [("e2e4", PyStr " 20"); ("d2d4", PyStr " 20")].
Definition dB : PyDict := [("e2e4", PyStr " 20")].
Definition dC : PyDict := [("e2e4", PyStr " 20"); ("a2a3", PyStr " 20")].
Definition dD : PyDict := [("d2d4", PyStr " 21"); ("e2e4", PyStr " 20")].
Definition dE : PyDict := [("g1f3", PyStr " 20")].

(** ** [main] of [perftdebug.py]

<<
    args = parser.parse_args()
    args = map(lambda x: " ".join(x) if isinstance(x, list) else x,
               (args.depth, args.fen, args.ref, args.eng))
    debug( *args )
>>
    [argparse] is outside the script: [main] is given the namespace it
    returns.  An option left out holds its default, a [str]; an option
    given on the command line holds the list of its words ([nargs=1] for
    [--ref], [--eng] and [--depth], [nargs="+"] for [--fen]). *)
Inductive ArgVal : Type :=
| ArgStr (s : string)
| ArgList (words : list string).

Record Namespace : Type := mkNamespace {
  ns_ref : ArgVal;
  ns_eng : ArgVal;
  ns_depth : ArgVal;
  ns_fen : ArgVal
}.

(** [" ".join(x) if isinstance(x, list) else x] *)
Definition join_arg (x : ArgVal) : string :=
  match x with
  | ArgList words => py_join " " words
  | ArgStr s => s
  end.

Definition main (py_int : string -> PyResult Z) (args : Namespace) : M unit :=
  PerftDebug.debug py_int (join_arg (ns_depth args)) (join_arg (ns_fen args))
    (join_arg (ns_ref args)) (join_arg (ns_eng args)).

(** The namespace when no option is given. *)
Definition default_args : Namespace :=
  mkNamespace (ArgStr STOCKFISH_PATH) (ArgStr ENGINE_PATH) (ArgStr "5")
    (ArgStr STARTING_FEN).

Definition space : ascii := " "%char.

(** A line that starts with a move in coordinate notation: file, rank,
    file, rank. *)
Definition uci_move_line (line : string) : bool :=
  match line with
  | String f1 (String r1 (String f2 (String r2 _))) =>
      is_file f1 && is_rank r1 && is_file f2 && is_rank r2
  | _ => false
  end.

(** * Properties *)

(** ** Strings and dicts *)

Example py_split_e2e4 : py_split colon "e2e4: 20" = ["e2e4"; " 20"].
Proof. reflexivity. Qed.

Example py_str_of_int_values :
  py_str_of_int 12 = "12" /\ py_str_of_int 0 = "0" /\ py_str_of_int (-3) = "-3".
Proof. repeat split; reflexivity. Qed.

Example decimal_int_values :
  decimal_int "5" = Ok 5%Z /\ decimal_int "-07" = Ok (-7)%Z /\
  decimal_int "+12" = Ok 12%Z /\ decimal_int "" = Raise ValueError /\
  decimal_int "abc" = Raise ValueError.
Proof. repeat split; reflexivity. Qed.

Example py_range_down_values :
  py_range_down 3 = [3; 2; 1]%Z /\ py_range_down 0 = [] /\ py_range_down (-2) = [].
Proof. repeat split; reflexivity. Qed.

Lemma py_split_length (c : ascii) (s : string) :
  length (py_split c s) = S (count_char c s).
Proof.
  induction s as [|a s IH]; simpl; [reflexivity|].
  destruct (Ascii.eqb a c); simpl.
  - by rewrite IH.
  - destruct (py_split c s) as [|piece pieces]; simpl in *; lia.
Qed.

(** A split unpacks into two names exactly when the line has one
    separator. *)
Lemma py_split_two (c : ascii) (s : string) :
  (exists a b, py_split c s = [a; b]) <-> count_char c s = 1.
Proof.
  pose proof (py_split_length c s) as Hlen. split.
  - intros (a & b & Hab). rewrite Hab in Hlen. simpl in Hlen. lia.
  - intros Hc. rewrite Hc in Hlen.
    destruct (py_split c s) as [|a [|b [|x l]]]; simpl in Hlen; try lia.
    by exists a, b.
Qed.

Lemma mem_string_elem_of (k : string) (l : list string) :
  mem_string k l = true <-> k ∈ l.
Proof.
  induction l as [|k' l IH]; simpl.
  - split; [discriminate | by intros ?%elem_of_nil].
  - rewrite orb_true_iff, IH, elem_of_cons, String.eqb_eq. naive_solver.
Qed.

Lemma nodup_keys_NoDup (l : list string) : nodup_keys l = true <-> NoDup l.
Proof.
  induction l as [|k l IH]; simpl.
  - split; [constructor | done].
  - rewrite andb_true_iff, negb_true_iff, NoDup_cons, IH.
    rewrite <- not_true_iff_false, mem_string_elem_of. done.
Qed.

Lemma dict_get_None (d : PyDict) (k : string) :
  dict_get d k = None <-> k ∉ dict_keys d.
Proof.
  induction d as [|[k' v] d IH]; simpl.
  - split; [by intros _ ?%elem_of_nil | done].
  - rewrite not_elem_of_cons. destruct (String.eqb_spec k' k) as [->|Hne].
    + split; [discriminate | by intros [? _]].
    + rewrite IH. naive_solver.
Qed.

Lemma dict_get_Some_elem (d : PyDict) (k : string) (v : PyVal) :
  dict_get d k = Some v -> (k, v) ∈ d.
Proof.
  induction d as [|[k' v'] d IH]; simpl; [discriminate|].
  destruct (String.eqb_spec k' k) as [->|Hne].
  - intros [= ->]. left.
  - intros H. right. by apply IH.
Qed.

(** In a well-formed dict an item is what the lookup of its key gives. *)
Lemma dict_get_elem (d : PyDict) (k : string) (v : PyVal) :
  dict_wf d = true -> (k, v) ∈ d -> dict_get d k = Some v.
Proof.
  unfold dict_wf. rewrite nodup_keys_NoDup.
  induction d as [|[k' v'] d IH]; simpl; intros Hnd Hin.
  - by apply elem_of_nil in Hin.
  - apply NoDup_cons in Hnd as [Hk' Hnd].
    apply elem_of_cons in Hin as [[= -> ->]|Hin].
    + by rewrite String.eqb_refl.
    + destruct (String.eqb_spec k' k) as [->|Hne]; [|by apply IH].
      exfalso. apply Hk'. change k with (fst (k, v)). by apply list_elem_of_fmap_2.
Qed.

Lemma dict_get_is_Some (d : PyDict) (k : string) :
  is_Some (dict_get d k) <-> k ∈ key_set d.
Proof.
  unfold key_set. rewrite elem_of_list_to_set.
  destruct (dict_get d k) eqn:E.
  - split; [intros _ | by eauto].
    apply dict_get_Some_elem in E. change k with (fst (k, p)).
    by apply list_elem_of_fmap_2.
  - apply dict_get_None in E. split; [by intros [? ?] | done].
Qed.

Lemma dict_keys_set (d : PyDict) (k : string) (v : PyVal) (k0 : string) :
  k0 ∈ dict_keys (dict_set d k v) <-> k0 = k \/ k0 ∈ dict_keys d.
Proof.
  induction d as [|[k' v'] d IH]; simpl.
  - rewrite list_elem_of_singleton. split; [auto | intros [?|?%elem_of_nil]; done].
  - destruct (String.eqb_spec k' k) as [->|Hne]; simpl.
    + rewrite elem_of_cons. naive_solver.
    + rewrite !elem_of_cons, IH. naive_solver.
Qed.

Lemma dict_set_wf (d : PyDict) (k : string) (v : PyVal) :
  dict_wf d = true -> dict_wf (dict_set d k v) = true.
Proof.
  unfold dict_wf. rewrite !nodup_keys_NoDup.
  induction d as [|[k' v'] d IH]; simpl; intros Hnd.
  - apply NoDup_singleton.
  - apply NoDup_cons in Hnd as [Hk' Hnd].
    destruct (String.eqb_spec k' k) as [->|Hne]; simpl.
    + by apply NoDup_cons.
    + apply NoDup_cons. split; [|by apply IH].
      fold (dict_keys (dict_set d k v)). rewrite dict_keys_set.
      intros [?|?]; [congruence | done].
Qed.

Lemma dict_get_set (d : PyDict) (k : string) (v : PyVal) :
  dict_get (dict_set d k v) k = Some v.
Proof.
  induction d as [|[k' v'] d IH]; simpl.
  - by rewrite String.eqb_refl.
  - destruct (String.eqb_spec k' k) as [->|Hne]; simpl.
    + by rewrite String.eqb_refl.
    + by apply String.eqb_neq in Hne as ->.
Qed.

(** ** The parse loop *)

Section ParseLoopFacts.
Variable line_matches : string -> bool.

Local Abbreviation bad := (unsplittable line_matches).

Lemma parse_lines_unsplittable (response : list string) (result : PyDict) :
  Exists bad response ->
  parse_lines line_matches response result = Raise ValueError.
Proof.
  revert result. induction response as [|line rest IH]; intros result Hex.
  - by apply Exists_nil in Hex.
  - simpl. destruct (line_matches line) eqn:Hm.
    + destruct (py_split colon line) as [|a [|b [|x l]]] eqn:Hs; try reflexivity.
      apply IH. apply Exists_cons in Hex as [[_ Hbad]|Hex]; [|done].
      exfalso. apply Hbad. apply py_split_two. eauto.
    + apply IH. apply Exists_cons in Hex as [[Hm' _]|Hex]; [congruence|done].
Qed.

(** When every line that passes the pattern has one colon, the loop
    returns a dict: it keeps the keys it started with, and adds the text
    before the colon of every such line. *)
Lemma parse_lines_splittable (response : list string) (result : PyDict) :
  Forall (fun line => ~ bad line) response ->
  exists d,
    parse_lines line_matches response result = Ok d /\
    (dict_wf result = true -> dict_wf d = true) /\
    (forall k, k ∈ dict_keys result -> k ∈ dict_keys d) /\
    (forall line move node_count,
        line ∈ response -> line_matches line = true ->
        py_split colon line = [move; node_count] -> move ∈ dict_keys d).
Proof.
  revert result. induction response as [|line rest IH]; intros result Hall.
  - exists result. simpl. repeat split; try done.
    by intros ? ? ? ?%elem_of_nil.
  - apply Forall_cons in Hall as [Hline Hall]. simpl.
    destruct (line_matches line) eqn:Hm.
    + assert (count_char colon line = 1) as Hone.
      { destruct (decide (count_char colon line = 1)); [done|].
        exfalso. by apply Hline. }
      apply py_split_two in Hone as (a & b & Hab). rewrite Hab.
      destruct (IH (dict_set result a (PyStr b)) Hall) as (d & Hd & Hwf & Hkeep & Hnew).
      exists d. split; [done|]. split; [|split].
      * intros Hr. by apply Hwf, dict_set_wf.
      * intros k Hk. apply Hkeep, dict_keys_set. by right.
      * intros l m c Hin Hlm Hsplit.
        apply elem_of_cons in Hin as [->|Hin]; [|by eapply Hnew].
        rewrite Hab in Hsplit. injection Hsplit as <- <-.
        apply Hkeep, dict_keys_set. by left.
    + destruct (IH result Hall) as (d & Hd & Hwf & Hkeep & Hnew).
      exists d. repeat split; try done.
      intros l m c Hin Hlm Hsplit.
      apply elem_of_cons in Hin as [->|Hin]; [congruence|by eapply Hnew].
Qed.

Lemma unsplittable_dec (line : string) : Decision (bad line).
Proof. unfold unsplittable. apply _. Defined.

(** The loop raises exactly when some line is unsplittable, and
    [ValueError] is all it raises. *)
Lemma parse_lines_raises (response : list string) (result : PyDict) (e : PyExc) :
  parse_lines line_matches response result = Raise e <->
  e = ValueError /\ Exists bad response.
Proof.
  destruct (decide (Exists bad response)) as [Hex|Hnex].
  - rewrite (parse_lines_unsplittable _ _ Hex). split.
    + by intros [= <-].
    + by intros [-> _].
  - apply not_Exists_Forall in Hnex; [|intros l; apply unsplittable_dec].
    destruct (parse_lines_splittable response result) as (d & -> & _).
    { eapply Forall_impl; [exact Hnex|]. simpl. auto. }
    split; [discriminate|]. intros [_ Hex].
    exfalso. eapply Forall_Exists_neg; [exact Hnex|exact Hex].
Qed.
End ParseLoopFacts.

(** ** The session runner *)

Lemma session_run (line_matches : string -> bool) (path : string)
    (lines : list string) (s : State) :
  session line_matches path lines s =
    (match response_of s (mkQuery path lines) with
     | Ok out => parse_response line_matches out
     | Raise e => Raise e
     end,
     asked s (mkQuery path lines)).
Proof.
  unfold session, bind, converse, lift, response_of. simpl.
  by destruct (engines s (spawned s) (mkQuery path lines)).
Qed.

(** What a session raises comes from the process or is the [ValueError]
    of the parse loop; what it returns is a well-formed dict. *)
Lemma session_result (line_matches : string -> bool) (path : string)
    (lines : list string) (s : State) (out : string) :
  response_of s (mkQuery path lines) = Ok out ->
  let lines_out := py_split newline out in
  (forall line, line ∈ lines_out -> unsplittable line_matches line ->
     fst (session line_matches path lines s) = Raise ValueError) /\
  ((forall line, line ∈ lines_out -> line_matches line = true ->
      count_char colon line = 1) ->
   exists d, fst (session line_matches path lines s) = Ok d /\
     dict_wf d = true /\
     forall line move node_count,
       line ∈ lines_out -> line_matches line = true ->
       py_split colon line = [move; node_count] -> move ∈ dict_keys d).
Proof.
  intros Hout lines_out. rewrite session_run, Hout. simpl.
  unfold parse_response. fold lines_out. split.
  - intros line Hin Hbad. apply parse_lines_unsplittable.
    apply Exists_exists. by exists line.
  - intros Hgood.
    destruct (parse_lines_splittable line_matches lines_out []) as (d & Hd & Hwf & _ & Hkeys).
    { apply Forall_forall. intros line Hin [Hm Hc]. by apply Hc, Hgood. }
    exists d. split; [done|]. split; [by apply Hwf|done].
Qed.

(** C1 (as the code has it): the answer [e2e4: 20] gives, in
    [perftdebugger.py], the key [e2e4] with the text [" 20"] (the count is
    never turned into an integer), and in [perftdebug.py] no entry at all,
    because its pattern wants two rank digits after the file letter.  In
    neither script is the result the mapping of [e2e4] to the integer 20.
    The line [Nodes searched: 20] gives no entry in either. *)
Theorem run_on_e2e4_20 :
  fst (PerftDebugger._run "engine" 1 (Some STARTING_FEN) (Some [])
         (init_state (prints "e2e4: 20")))
    = Ok [("e2e4", PyStr " 20")] /\
  fst (PerftDebug._run ENGINE_PATH 1 STARTING_FEN (Some [])
         (init_state (prints "e2e4: 20")))
    = Ok [] /\
  fst (PerftDebugger._run "engine" 1 (Some STARTING_FEN) (Some [])
         (init_state (prints "e2e4: 20")))
    <> Ok [("e2e4", PyInt 20)] /\
  fst (PerftDebug._run ENGINE_PATH 1 STARTING_FEN (Some [])
         (init_state (prints "e2e4: 20")))
    <> Ok [("e2e4", PyInt 20)] /\
  fst (PerftDebugger._run "engine" 1 (Some STARTING_FEN) (Some [])
         (init_state (prints "Nodes searched: 20")))
    = Ok [] /\
  fst (PerftDebug._run ENGINE_PATH 1 STARTING_FEN (Some [])
         (init_state (prints "Nodes searched: 20")))
    = Ok [].
Proof. repeat split; try reflexivity; vm_compute; discriminate. Qed.

(** C7 (counterexample): a record whose count is [abc] is returned in the
    mapping; nothing is raised. *)
Lemma run_returns_non_integer_count :
  fst (PerftDebugger._run "engine" 1 (Some STARTING_FEN) (Some [])
         (init_state (prints "e2e4: abc")))
    = Ok [("e2e4", PyStr " abc")] /\
  fst (PerftDebug._run ENGINE_PATH 1 STARTING_FEN (Some [])
         (init_state (prints "a11: abc")))
    = Ok [("a11", PyStr " abc")].
Proof. repeat split; reflexivity. Qed.

(** C7 (amended): the count token is not looked at.  When every line of
    the answer that passes the pattern has exactly one colon, [_run]
    returns a mapping and raises nothing, and the text before the colon of
    each such line is a key of that mapping, whatever follows the colon. *)
Theorem run_checks_no_count (s : State) (out : string) (depth : Z)
    (moves : option (list string)) :
  (forall path fen,
      response_of s (mkQuery path (PerftDebug.request depth fen moves)) = Ok out ->
      (forall line, line ∈ py_split newline out ->
         PerftDebug.line_matches line = true -> count_char colon line = 1) ->
      exists d, fst (PerftDebug._run path depth fen moves s) = Ok d /\
        forall line move node_count,
          line ∈ py_split newline out -> PerftDebug.line_matches line = true ->
          py_split colon line = [move; node_count] -> move ∈ dict_keys d) /\
  (forall engine fen,
      response_of s (mkQuery (PerftDebugger.path_of engine)
                       (PerftDebugger.request engine depth fen moves)) = Ok out ->
      (forall line, line ∈ py_split newline out ->
         PerftDebugger.line_matches line = true -> count_char colon line = 1) ->
      exists d, fst (PerftDebugger._run engine depth fen moves s) = Ok d /\
        forall line move node_count,
          line ∈ py_split newline out -> PerftDebugger.line_matches line = true ->
          py_split colon line = [move; node_count] -> move ∈ dict_keys d).
Proof.
  split.
  - intros path fen Hout Hgood. unfold PerftDebug._run.
    destruct (session_result PerftDebug.line_matches _ _ _ _ Hout) as [_ Hok].
    destruct (Hok Hgood) as (d & Hd & _ & Hkeys). eauto.
  - intros engine fen Hout Hgood. unfold PerftDebugger._run.
    destruct (session_result PerftDebugger.line_matches _ _ _ _ Hout) as [_ Hok].
    destruct (Hok Hgood) as (d & Hd & _ & Hkeys). eauto.
Qed.

(** C10: when the answer has a line that passes the pattern of the script
    and does not have exactly one colon, [_run] raises [ValueError], and
    returns no mapping; when every line that passes the pattern has exactly
    one colon, it returns a mapping. *)
Theorem run_unsplittable_line (s : State) (out : string) (depth : Z)
    (moves : option (list string)) :
  (forall path fen,
      response_of s (mkQuery path (PerftDebug.request depth fen moves)) = Ok out ->
      (forall line, line ∈ py_split newline out ->
         PerftDebug.line_matches line = true -> count_char colon line <> 1 ->
         fst (PerftDebug._run path depth fen moves s) = Raise ValueError) /\
      ((forall line, line ∈ py_split newline out ->
          PerftDebug.line_matches line = true -> count_char colon line = 1) ->
       exists d, fst (PerftDebug._run path depth fen moves s) = Ok d)) /\
  (forall engine fen,
      response_of s (mkQuery (PerftDebugger.path_of engine)
                       (PerftDebugger.request engine depth fen moves)) = Ok out ->
      (forall line, line ∈ py_split newline out ->
         PerftDebugger.line_matches line = true -> count_char colon line <> 1 ->
         fst (PerftDebugger._run engine depth fen moves s) = Raise ValueError) /\
      ((forall line, line ∈ py_split newline out ->
          PerftDebugger.line_matches line = true -> count_char colon line = 1) ->
       exists d, fst (PerftDebugger._run engine depth fen moves s) = Ok d)).
Proof.
  split.
  - intros path fen Hout. unfold PerftDebug._run.
    destruct (session_result PerftDebug.line_matches _ _ _ _ Hout) as [Hbad Hok]. split.
    + intros line Hin Hm Hc. by apply (Hbad line).
    + intros Hgood. destruct (Hok Hgood) as (d & Hd & _). eauto.
  - intros engine fen Hout. unfold PerftDebugger._run.
    destruct (session_result PerftDebugger.line_matches _ _ _ _ Hout) as [Hbad Hok]. split.
    + intros line Hin Hm Hc. by apply (Hbad line).
    + intros Hgood. destruct (Hok Hgood) as (d & Hd & _). eauto.
Qed.

(** ** The comparator *)

Lemma key_set_elem (d : PyDict) (k : string) : k ∈ key_set d <-> k ∈ dict_keys d.
Proof. unfold key_set. apply elem_of_list_to_set. Qed.

Lemma elem_key (d : PyDict) (k : string) (v : PyVal) : (k, v) ∈ d -> k ∈ dict_keys d.
Proof. intros H. change k with (fst (k, v)). by apply list_elem_of_fmap_2. Qed.

(** Order does not matter to a well-formed dict's lookups. *)
Lemma dict_wf_perm (d d' : PyDict) : d' ≡ₚ d -> dict_wf d = true -> dict_wf d' = true.
Proof.
  unfold dict_wf. rewrite !nodup_keys_NoDup. intros Hp. unfold dict_keys.
  by rewrite Hp.
Qed.

Lemma dict_get_perm (d d' : PyDict) (k : string) :
  d' ≡ₚ d -> dict_wf d = true -> dict_get d' k = dict_get d k.
Proof.
  intros Hp Hwf. pose proof (dict_wf_perm _ _ Hp Hwf) as Hwf'.
  destruct (dict_get d k) as [v|] eqn:E.
  - apply dict_get_elem; [done|]. rewrite Hp. by apply dict_get_Some_elem.
  - apply dict_get_None. apply dict_get_None in E. unfold dict_keys in *.
    by rewrite Hp.
Qed.

Lemma key_set_perm (d d' : PyDict) : d' ≡ₚ d -> key_set d' = key_set d.
Proof.
  intros Hp. apply set_eq. intros k. rewrite !key_set_elem. unfold dict_keys.
  by rewrite Hp.
Qed.

Lemma scan_counts_agree (items : list (string * PyVal)) (reference : PyDict) (s : State) :
  (forall k v, (k, v) ∈ items -> dict_get reference k = Some v) ->
  scan_counts items reference s = (Ok OK, s).
Proof.
  induction items as [|[k v] items IH]; intros Hall; simpl; [reflexivity|].
  rewrite (Hall k v) by left.
  rewrite bool_decide_false by (intros Hne; by apply Hne).
  apply IH. intros k' v' Hin. apply Hall. by right.
Qed.

Lemma scan_counts_first (pre post : list (string * PyVal)) (k : string) (v w : PyVal)
    (reference : PyDict) (s : State) :
  (forall k' v', (k', v') ∈ pre -> dict_get reference k' = Some v') ->
  dict_get reference k = Some w -> w <> v ->
  scan_counts (pre ++ (k, v) :: post) reference s = load COUNT_MISMATCH (PMove k) s.
Proof.
  induction pre as [|[k' v'] pre IH]; intros Hpre Hk Hne; simpl.
  - rewrite Hk. by rewrite bool_decide_true.
  - rewrite (Hpre k' v') by left.
    rewrite bool_decide_false by (intros Hx; by apply Hx).
    apply IH; [|done|done]. intros k0 v0 Hin. apply Hpre. by right.
Qed.

(** With equal key sets the scan finds every key it asks for: it returns
    [OK], or loads [COUNT_MISMATCH] with a key of the tested mapping. *)
Lemma scan_counts_total (items : list (string * PyVal)) (reference : PyDict) :
  (forall k v, (k, v) ∈ items -> k ∈ key_set reference) ->
  (forall s, scan_counts items reference s = (Ok OK, s)) \/
  exists k, k ∈ dict_keys items /\
    forall s, scan_counts items reference s = load COUNT_MISMATCH (PMove k) s.
Proof.
  induction items as [|[k v] items IH]; intros Hall; simpl; [by left|].
  destruct (dict_get reference k) as [w|] eqn:E.
  - destruct (decide (w = v)) as [->|Hne].
    + rewrite bool_decide_false by (intros Hx; by apply Hx).
      destruct IH as [IH|(k' & Hk' & IH)].
      * intros k' v' Hin. eapply Hall. by right.
      * by left.
      * right. exists k'. split; [by right|done].
    + rewrite bool_decide_true by done. right. exists k. split; [left|done].
  - exfalso. assert (is_Some (dict_get reference k)) as [? ?]; [|congruence].
    apply dict_get_is_Some. eapply Hall. left.
Qed.

Lemma compare_equal_keys (tested reference : PyDict) :
  key_set tested = key_set reference ->
  _debug_compare tested reference = scan_counts tested reference.
Proof.
  intros Heq. unfold _debug_compare. by rewrite bool_decide_false by (intros Hx; by apply Hx).
Qed.

Lemma verdict_load (tested reference : PyDict) (s : State) (v : DebugResult) (p : Payload) :
  _debug_compare tested reference s = load v p s ->
  verdict tested reference s = Ok (v, Some p).
Proof.
  unfold verdict. intros ->. unfold load. simpl. by rewrite decide_True.
Qed.

Lemma sym_diff_elem (a b : gset string) (k : string) :
  k ∈ sym_diff a b <-> (k ∈ a /\ k ∉ b) \/ (k ∈ b /\ k ∉ a).
Proof. unfold sym_diff. set_solver. Qed.

Lemma sym_diff_disjoint (a b : gset string) : a ## b -> sym_diff a b = a ∪ b.
Proof. unfold sym_diff. set_solver. Qed.

(** C2: when the key sets differ, the comparator returns [EXCESS_MOVE]
    loaded with keys(tested) - keys(reference) if the tested set has more
    keys (in particular if it is a strict superset), [MISSING_MOVE] loaded
    with keys(reference) - keys(tested) if the reference set has more, and
    [DISAGREE_MOVE] loaded with the symmetric difference if the sizes are
    equal, which is the union of the two sets when they are disjoint. *)
Theorem compare_key_sets_differ (tested reference : PyDict) (s : State) :
  key_set tested <> key_set reference ->
  let egn_moves := key_set tested in
  let sf_moves := key_set reference in
  (size sf_moves < size egn_moves ->
     verdict tested reference s = Ok (EXCESS_MOVE, Some (PMoves (egn_moves ∖ sf_moves)))) /\
  (sf_moves ⊂ egn_moves ->
     verdict tested reference s = Ok (EXCESS_MOVE, Some (PMoves (egn_moves ∖ sf_moves)))) /\
  (size egn_moves < size sf_moves ->
     verdict tested reference s = Ok (MISSING_MOVE, Some (PMoves (sf_moves ∖ egn_moves)))) /\
  (egn_moves ⊂ sf_moves ->
     verdict tested reference s = Ok (MISSING_MOVE, Some (PMoves (sf_moves ∖ egn_moves)))) /\
  (size egn_moves = size sf_moves ->
     verdict tested reference s = Ok (DISAGREE_MOVE, Some (PMoves (sym_diff egn_moves sf_moves))) /\
     (forall k, k ∈ sym_diff egn_moves sf_moves <->
                (k ∈ egn_moves /\ k ∉ sf_moves) \/ (k ∈ sf_moves /\ k ∉ egn_moves)) /\
     (egn_moves ## sf_moves -> egn_moves <> ∅ ->
        verdict tested reference s = Ok (DISAGREE_MOVE, Some (PMoves (egn_moves ∪ sf_moves))))).
Proof.
  intros Hne egn_moves sf_moves.
  assert (forall v p, _debug_compare tested reference s = load v p s ->
                      verdict tested reference s = Ok (v, Some p)) as Hload
    by apply verdict_load.
  assert (size sf_moves < size egn_moves ->
          verdict tested reference s = Ok (EXCESS_MOVE, Some (PMoves (egn_moves ∖ sf_moves)))) as Hex.
  { intros Hlt. apply Hload. unfold _debug_compare. fold egn_moves sf_moves.
    rewrite bool_decide_true by done.
    by apply Nat.ltb_lt in Hlt as ->. }
  assert (size egn_moves < size sf_moves ->
          verdict tested reference s = Ok (MISSING_MOVE, Some (PMoves (sf_moves ∖ egn_moves)))) as Hmiss.
  { intros Hlt. apply Hload. unfold _debug_compare. fold egn_moves sf_moves.
    rewrite bool_decide_true by done.
    assert ((size sf_moves <? size egn_moves)%nat = false) as -> by (apply Nat.ltb_ge; lia).
    by apply Nat.ltb_lt in Hlt as ->. }
  assert (size egn_moves = size sf_moves ->
          verdict tested reference s = Ok (DISAGREE_MOVE, Some (PMoves (sym_diff egn_moves sf_moves)))) as Hdis.
  { intros Heq. apply Hload. unfold _debug_compare. fold egn_moves sf_moves.
    rewrite bool_decide_true by done.
    assert ((size sf_moves <? size egn_moves)%nat = false) as -> by (apply Nat.ltb_ge; lia).
    by assert ((size egn_moves <? size sf_moves)%nat = false) as -> by (apply Nat.ltb_ge; lia). }
  split; [exact Hex|]. split; [intros Hsub; by apply Hex, subset_size|].
  split; [exact Hmiss|]. split; [intros Hsub; by apply Hmiss, subset_size|].
  intros Heq. split; [by apply Hdis|]. split; [apply sym_diff_elem|].
  intros Hdisj _. rewrite <- sym_diff_disjoint by done. by apply Hdis.
Qed.

Lemma compare_key_sets_differ_witness :
  verdict dA dB (init_state silent) = Ok (EXCESS_MOVE, Some (PMoves {["d2d4"]})) /\
  verdict dB dA (init_state silent) = Ok (MISSING_MOVE, Some (PMoves {["d2d4"]})) /\
  verdict dB dE (init_state silent) = Ok (DISAGREE_MOVE, Some (PMoves {["e2e4"; "g1f3"]})).
Proof.
  split; [|split].
  - assert (key_set dA <> key_set dB) as Hne by (vm_compute; discriminate).
    destruct (compare_key_sets_differ dA dB (init_state silent) Hne) as (H & _).
    etransitivity; [apply H; vm_compute; lia|]. vm_compute. reflexivity.
  - assert (key_set dB <> key_set dA) as Hne by (vm_compute; discriminate).
    destruct (compare_key_sets_differ dB dA (init_state silent) Hne) as (_ & _ & H & _).
    etransitivity; [apply H; vm_compute; lia|]. vm_compute. reflexivity.
  - assert (key_set dB <> key_set dE) as Hne by (vm_compute; discriminate).
    destruct (compare_key_sets_differ dB dE (init_state silent) Hne) as (_ & _ & _ & _ & H).
    destruct (H eq_refl) as (_ & _ & Hu).
    etransitivity; [apply Hu|].
    + apply (bool_decide_unpack _). vm_compute. exact I.
    + vm_compute. discriminate.
    + vm_compute. reflexivity.
Defined.

Lemma compare_first_mismatch (pre post : list (string * PyVal)) (k : string)
    (v : PyVal) (reference : PyDict) (s : State) :
  key_set (pre ++ (k, v) :: post) = key_set reference ->
  (forall k' v', (k', v') ∈ pre -> dict_get reference k' = Some v') ->
  dict_get reference k <> Some v ->
  verdict (pre ++ (k, v) :: post) reference s = Ok (COUNT_MISMATCH, Some (PMove k)).
Proof.
  intros Hkeys Hpre Hk. apply verdict_load. rewrite compare_equal_keys by done.
  assert (is_Some (dict_get reference k)) as [w Hw].
  { apply dict_get_is_Some. rewrite <- Hkeys. apply key_set_elem.
    apply (elem_key _ k v). apply elem_of_app. right. left. }
  apply (scan_counts_first pre post k v w); [done|done|congruence].
Qed.

(** C3: with identical key sets and exactly one key whose values differ,
    the comparator returns [COUNT_MISMATCH] loaded with that key, in
    whatever order the two mappings list their items; and whenever the
    items of the tested mapping before [k] agree with the reference and
    [k] does not, it returns [COUNT_MISMATCH] loaded with [k], the first
    differing key in the iteration order of the tested mapping. *)
Theorem compare_count_mismatch (tested reference : PyDict) (s : State) :
  dict_wf tested = true -> dict_wf reference = true ->
  key_set tested = key_set reference ->
  (forall k, k ∈ key_set tested ->
     (forall k', k' ∈ key_set tested ->
        (dict_get reference k' <> dict_get tested k' <-> k' = k)) ->
     forall tested' reference', tested' ≡ₚ tested -> reference' ≡ₚ reference ->
       verdict tested' reference' s = Ok (COUNT_MISMATCH, Some (PMove k))) /\
  (forall pre k v post, tested = pre ++ (k, v) :: post ->
     (forall k' v', (k', v') ∈ pre -> dict_get reference k' = Some v') ->
     dict_get reference k <> Some v ->
     verdict tested reference s = Ok (COUNT_MISMATCH, Some (PMove k))).
Proof.
  intros Hwt Hwr Hkeys. split.
  - intros k Hk Honly tested' reference' Hpt Hpr.
    pose proof (dict_wf_perm _ _ Hpt Hwt) as Hwt'.
    assert (exists v, (k, v) ∈ tested') as [v Hv].
    { rewrite <- (key_set_perm _ _ Hpt) in Hk. apply key_set_elem in Hk.
      apply list_elem_of_fmap in Hk as ([k0 v] & -> & Hin). by exists v. }
    apply list_elem_of_split in Hv as (pre & post & Heq). subst tested'.
    apply compare_first_mismatch.
    + by rewrite (key_set_perm _ _ Hpt), (key_set_perm _ _ Hpr).
    + intros k' v' Hin.
      assert (k' <> k) as Hne.
      { intros ->. unfold dict_wf in Hwt'. apply nodup_keys_NoDup in Hwt'.
        unfold dict_keys in Hwt'. rewrite fmap_app in Hwt'. simpl in Hwt'.
        apply NoDup_app in Hwt' as (_ & Hdisj & _).
        apply (Hdisj k); [by apply (elem_key pre k v')|left]. }
      assert ((k', v') ∈ tested) as Hint.
      { rewrite <- Hpt. apply elem_of_app. by left. }
      rewrite (dict_get_perm _ _ _ Hpr Hwr).
      rewrite <- (dict_get_elem tested k' v' Hwt Hint).
      destruct (decide (dict_get reference k' = dict_get tested k')) as [|Hd]; [done|].
      exfalso. apply Hne. apply Honly; [|done].
      apply key_set_elem. by apply (elem_key tested k' v').
    + rewrite (dict_get_perm _ _ _ Hpr Hwr).
      assert ((k, v) ∈ tested) as Hint.
      { rewrite <- Hpt. apply elem_of_app. right. left. }
      rewrite <- (dict_get_elem tested k v Hwt Hint). by apply Honly.
  - intros pre k v post -> Hpre Hk. by apply compare_first_mismatch.
Qed.

Lemma compare_count_mismatch_witness :
  verdict [("e2e4", PyStr " 20"); ("d2d4", PyStr " 21")] dA (init_state silent)
    = Ok (COUNT_MISMATCH, Some (PMove "d2d4")) /\
  verdict (dD ++ [("a2a3", PyStr "1")]) (("a2a3", PyStr "2") :: dA) (init_state silent)
    = Ok (COUNT_MISMATCH, Some (PMove "d2d4")).
Proof.
  split.
  - assert (dict_wf dD = true) as Hd by reflexivity.
    assert (dict_wf dA = true) as Ha by reflexivity.
    assert (key_set dD = key_set dA) as Hk by (vm_compute; reflexivity).
    destruct (compare_count_mismatch dD dA (init_state silent) Hd Ha Hk) as [H _].
    apply (H "d2d4").
    + apply (bool_decide_unpack _). vm_compute. exact I.
    + intros k' Hk'. apply key_set_elem in Hk'. simpl in Hk'.
      apply elem_of_cons in Hk' as [->|Hk'].
      { split; [done | intros _; vm_compute; congruence]. }
      apply list_elem_of_singleton in Hk' as ->.
      split; [intros Hx; by exfalso; apply Hx | discriminate].
    + apply perm_swap.
    + reflexivity.
  - assert (dict_wf (dD ++ [("a2a3", PyStr "1")]) = true) as Ha by reflexivity.
    assert (dict_wf (("a2a3", PyStr "2") :: dA) = true) as Hd by reflexivity.
    assert (key_set (dD ++ [("a2a3", PyStr "1")]) = key_set (("a2a3", PyStr "2") :: dA))
      as Hk by (vm_compute; reflexivity).
    destruct (compare_count_mismatch _ _ (init_state silent) Ha Hd Hk) as [_ H].
    apply (H [] "d2d4" (PyStr " 21") [("e2e4", PyStr " 20"); ("a2a3", PyStr "1")]).
    + reflexivity.
    + intros k' v' Hin. by apply elem_of_nil in Hin.
    + vm_compute. congruence.
Defined.

(** C9: comparing a mapping with itself returns [OK], and changes
    nothing. *)
Theorem compare_self_agrees (A : PyDict) (s : State) :
  dict_wf A = true -> _debug_compare A A s = (Ok OK, s).
Proof.
  intros Hwf. rewrite compare_equal_keys by done.
  apply scan_counts_agree. intros k v Hin. by apply dict_get_elem.
Qed.

Lemma compare_self_agrees_witness :
  _debug_compare dA dA (init_state silent) = (Ok OK, init_state silent).
Proof. apply (compare_self_agrees dA (init_state silent)). reflexivity. Defined.

(** C6 (counterexample): the comparison writes the [payload] attribute of
    the shared member [EXCESS_MOVE], and the next comparison writes it
    again, so the payload read through the first verdict changes. *)
Lemma compare_overwrites_payload :
  let s0 := init_state silent in
  let s1 := snd (_debug_compare dA dB s0) in
  let s2 := snd (_debug_compare dC dB s1) in
  fst (_debug_compare dA dB s0) = Ok EXCESS_MOVE /\
  fst (_debug_compare dC dB s1) = Ok EXCESS_MOVE /\
  payload_of s0 EXCESS_MOVE = None /\
  payload_of s1 EXCESS_MOVE = Some (PMoves {["d2d4"]}) /\
  payload_of s2 EXCESS_MOVE = Some (PMoves {["a2a3"]}) /\
  payload_of s1 EXCESS_MOVE <> payload_of s0 EXCESS_MOVE /\
  payload_of s2 EXCESS_MOVE <> payload_of s1 EXCESS_MOVE.
Proof.
  repeat split; try (vm_compute; reflexivity); vm_compute; discriminate.
Qed.

Lemma load_frame (v : DebugResult) (p : Payload) (s : State) :
  fst (load v p s) = Ok v /\
  engines (snd (load v p s)) = engines s /\
  spawned (snd (load v p s)) = spawned s /\
  printed (snd (load v p s)) = printed s /\
  payload_of (snd (load v p s)) v = Some p /\
  (forall r, r <> v -> payload_of (snd (load v p s)) r = payload_of s r).
Proof.
  unfold load. simpl. repeat split.
  - by rewrite decide_True.
  - intros r Hr. by rewrite decide_False.
Qed.

(** The comparator returns [OK] and leaves the state alone, or loads one
    of the other four members with a payload that the two mappings
    determine. *)
Lemma compare_cases (tested reference : PyDict) :
  (forall s, _debug_compare tested reference s = (Ok OK, s)) \/
  (exists v p, v <> OK /\
     (v = COUNT_MISMATCH -> exists k, p = PMove k) /\
     (v <> COUNT_MISMATCH -> exists moves, p = PMoves moves) /\
     forall s, _debug_compare tested reference s = load v p s).
Proof.
  unfold _debug_compare.
  destruct (decide (key_set tested = key_set reference)) as [Heq|Hne].
  - rewrite bool_decide_false by (intros Hx; by apply Hx).
    destruct (scan_counts_total tested reference) as [Hok|(k & Hk & Hload)].
    + intros k v Hkv. rewrite <- Heq. apply key_set_elem. by apply (elem_key _ k v).
    + by left.
    + right. exists COUNT_MISMATCH, (PMove k). repeat split; eauto; done.
  - rewrite bool_decide_true by done. right.
    destruct (size (key_set reference) <? size (key_set tested))%nat;
      [eexists _, _; repeat split; eauto; done|].
    destruct (size (key_set tested) <? size (key_set reference))%nat;
      eexists _, _; repeat split; eauto; done.
Qed.

(** C6 (amended): the comparator is total and its verdict is a function
    of the two mappings; it returns a member of the enum and raises
    nothing.  It is not free of effects: when the member is not [OK] it
    writes the [payload] attribute of that member, which every holder of
    the member sees; it writes nothing else (the other members' payloads,
    the conversations and the output stay as they were), and nothing at
    all when the member is [OK]. *)
Theorem compare_total_frame (tested reference : PyDict) (s : State) :
  exists v, fst (_debug_compare tested reference s) = Ok v /\
    let s' := snd (_debug_compare tested reference s) in
    engines s' = engines s /\ spawned s' = spawned s /\ printed s' = printed s /\
    (forall r, r <> v -> payload_of s' r = payload_of s r) /\
    (v = OK -> s' = s) /\
    (v <> OK -> is_Some (payload_of s' v)) /\
    (forall s2, fst (_debug_compare tested reference s2) = Ok v /\
       (v <> OK -> payload_of (snd (_debug_compare tested reference s2)) v
                   = payload_of s' v)).
Proof.
  destruct (compare_cases tested reference) as [Hok|(v & p & Hv & _ & _ & Hload)].
  - exists OK. rewrite Hok. simpl.
    do 5 (split; [done|]). split; [done|]. split; [by intros Hx|].
    intros s2. rewrite Hok. split; [done|]. by intros Hx.
  - exists v. rewrite Hload.
    destruct (load_frame v p s) as (H1 & H2 & H3 & H4 & H5 & H6).
    split; [done|]. cbv zeta.
    do 4 (split; [done|]). split; [by intros Hx|].
    split; [intros _; by rewrite H5|].
    intros s2. rewrite Hload.
    destruct (load_frame v p s2) as (H1' & _ & _ & _ & H5' & _).
    split; [done|]. intros _. by rewrite H5, H5'.
Qed.

(** ** One turn: two sessions and a comparison *)

Lemma bind_run {A B} (c : M A) (k : A -> M B) (s : State) :
  bind c k s = match fst (c s) with
               | Ok a => k a (snd (c s))
               | Raise e => (Raise e, snd (c s))
               end.
Proof. unfold bind. by destruct (c s) as [[a|e] s']. Qed.

(** The shape both [_debug] have: the run of the engine under test, the
    run of the reference engine if the first returned, the comparison if
    both did.  Nothing is printed; a member other than [OK] comes back
    loaded, [COUNT_MISMATCH] with one move and the others with a set. *)
Lemma two_sessions (line_matches : string -> bool) (p1 p2 : string)
    (l1 l2 : list string) (s : State) :
  let turn := (chess_perft <- session line_matches p1 l1;;
               stockfish_perft <- session line_matches p2 l2;;
               _debug_compare chess_perft stockfish_perft) in
  exists both : bool,
    spawned (snd (turn s))
      = spawned s ++ mkQuery p1 l1 :: (if both then [mkQuery p2 l2] else []) /\
    printed (snd (turn s)) = printed s /\
    (both = false -> exists e, fst (turn s) = Raise e) /\
    (forall v, fst (turn s) = Ok v -> v <> OK ->
       exists p, payload_of (snd (turn s)) v = Some p /\
         (v = COUNT_MISMATCH -> exists k, p = PMove k) /\
         (v <> COUNT_MISMATCH -> exists moves, p = PMoves moves)).
Proof.
  intros turn. unfold turn. rewrite bind_run, session_run. cbn [fst snd].
  destruct (match response_of s (mkQuery p1 l1) with
            | Ok out => parse_response line_matches out
            | Raise e => Raise e
            end) as [d1|e1].
  - rewrite bind_run, session_run. cbn [fst snd].
    exists true.
    destruct (match response_of (asked s (mkQuery p1 l1)) (mkQuery p2 l2) with
              | Ok out => parse_response line_matches out
              | Raise e => Raise e
              end) as [d2|e2].
    + destruct (compare_cases d1 d2) as [Hok|(v & p & Hv & Hk & Hm & Hload)].
      * rewrite Hok. cbn [fst snd asked spawned printed]. rewrite <- app_assoc.
        repeat split; try done. intros v [= <-] Hv. done.
      * rewrite Hload.
        destruct (load_frame v p (asked (asked s (mkQuery p1 l1)) (mkQuery p2 l2)))
          as (H1 & _ & H3 & H4 & H5 & _).
        rewrite H3, H4. cbn [asked spawned printed]. rewrite <- app_assoc.
        repeat split; try done.
        intros v' Hv' _. rewrite H1 in Hv'. injection Hv' as <-. eauto.
    + cbn [fst snd asked spawned printed]. rewrite <- app_assoc.
      repeat split; try done.
  - exists false. cbn [fst snd asked spawned printed]. repeat split; try done. eauto.
Qed.

(** A turn raises only what one of its two sessions raises: the
    comparison raises nothing. *)
Lemma turn_raises (line_matches : string -> bool) (p1 p2 : string)
    (l1 l2 : list string) (s : State) (e : PyExc) :
  fst ((chess_perft <- session line_matches p1 l1;;
        stockfish_perft <- session line_matches p2 l2;;
        _debug_compare chess_perft stockfish_perft) s) = Raise e ->
  fst (session line_matches p1 l1 s) = Raise e \/
  fst (session line_matches p2 l2 (snd (session line_matches p1 l1 s))) = Raise e.
Proof.
  rewrite bind_run.
  destruct (fst (session line_matches p1 l1 s)) as [d1|e1];
    [|intros [= ->]; by left].
  rewrite bind_run.
  destruct (fst (session line_matches p2 l2 (snd (session line_matches p1 l1 s))))
    as [d2|e2]; [|intros [= ->]; by right].
  destruct (compare_cases d1 d2) as [Hok|(v & p & _ & _ & _ & Hload)].
  - rewrite Hok. discriminate.
  - rewrite Hload. discriminate.
Qed.

(** ** The loop of [debug] *)

Lemma print_run (r : Report) (s : State) :
  fst (print r s) = Ok tt /\
  spawned (snd (print r s)) = spawned s /\
  printed (snd (print r s)) = printed s ++ [r].
Proof. done. Qed.

Section DriverFacts.
Variable step : Z -> list string -> M DebugResult.
Variables fen ok_rest : string.
Variable queries : Turn -> list Query.

(** What the loop needs of a turn: it holds the conversations of that
    turn, prints nothing, and hands back members other than [OK] loaded
    as the comparator loads them. *)
Hypothesis step_spec : forall d moves s,
  exists both : bool,
    spawned (snd (step d moves s)) = spawned s ++ queries (mkTurn d moves both) /\
    printed (snd (step d moves s)) = printed s /\
    (both = false -> exists e, fst (step d moves s) = Raise e) /\
    (forall v, fst (step d moves s) = Ok v -> v <> OK ->
       exists p, payload_of (snd (step d moves s)) v = Some p /\
         (v = COUNT_MISMATCH -> exists k, p = PMove k) /\
         (v <> COUNT_MISMATCH -> exists ms, p = PMoves ms)).

Lemma single_turn_run (n : nat) (moves : list string) (s : State)
    (t : Turn) (run : PyResult unit * State) :
  turn_depth t = Z.of_nat (S n) -> turn_moves t = moves ->
  (turn_both t = false -> exists e, fst run = Raise e) ->
  spawned (snd run) = spawned s ++ queries t ->
  match fst run with
  | Raise e =>
      printed (snd run) = printed s /\
      exists s', fst (step (Z.of_nat (S n)) moves s') = Raise e
  | Ok _ =>
      exists report, printed (snd run) = printed s ++ [report] /\
        (report = ReportOK OK ok_rest \/
         exists v p, report = ReportVariation v (PMoves p)
                                (fen +:+ " " +:+ py_join " " moves) /\
                     move_set_verdict v)
  end ->
  loop_run step (S n) moves fen ok_rest queries s run.
Proof.
  intros Hd Hm Hboth Hsp Hout. exists [t]. split; [|split; [|split]].
  - simpl. by rewrite app_nil_r.
  - simpl. lia.
  - intros i t' Hi. destruct i as [|i]; [|done]. injection Hi as <-.
    split; [by rewrite Hd, Nat.sub_0_r|]. split; [rewrite Hm; lia|].
    intros Hb. split; [done|]. by apply Hboth.
  - destruct (fst run) as [[]|e].
    + destruct Hout as (report & Hp & [->|(v & p & -> & Hv)]).
      * exists (ReportOK OK ok_rest). split; [done|]. by left.
      * eexists. split; [done|]. right. left. exists v, p, t.
        rewrite Hm. repeat split; try done. lia.
    + destruct Hout as (Hp & s' & Hs'). split; [done|].
      exists t, s'. by rewrite Hd, Hm.
Qed.

Lemma debug_loop_run (n : nat) (moves : list string) (s : State) :
  loop_run step n moves fen ok_rest queries s
    (debug_loop step fen ok_rest (countdown n) moves s).
Proof.
  revert moves s. induction n as [|n IH]; intros moves s.
  - exists []. simpl. rewrite app_nil_r. repeat split; try done.
    exists ReportFailed. split; [done|]. right. right. done.
  - change (countdown (S n)) with (Z.of_nat (S n) :: countdown n).
    cbn [debug_loop]. rewrite bind_run.
    destruct (step_spec (Z.of_nat (S n)) moves s) as (both & Hsp & Hpr & Hboth & Hload).
    set (t := mkTurn (Z.of_nat (S n)) moves both) in *.
    destruct (fst (step (Z.of_nat (S n)) moves s)) as [v|e] eqn:Hv.
    + assert (both = true) as Htrue.
      { destruct both; [done|]. destruct (Hboth eq_refl) as [e He]. discriminate. }
      destruct (decide (v = OK)) as [->|Hnok].
      { apply (single_turn_run n moves s t);
          [done|done|intros Hb; simpl in Hb; congruence|exact Hsp|].
        rewrite (proj1 (print_run _ _)). exists (ReportOK OK ok_rest).
        rewrite (proj2 (proj2 (print_run _ _))), Hpr. split; [done|]. by left. }
      destruct (Hload v eq_refl Hnok) as (p & Hp & Hk & Hms).
      destruct (decide (v = COUNT_MISMATCH)) as [->|Hncm].
      * destruct (Hk eq_refl) as [k ->].
        rewrite bind_run. unfold get_payload at 1 2. rewrite Hp. cbn [fst snd].
        destruct (IH (moves ++ [k]) (snd (step (Z.of_nat (S n)) moves s)))
          as (turns & Hsp' & Hlen & Hturns & Hout).
        exists (t :: turns). split; [|split; [|split]].
        -- rewrite Hsp', Hsp. cbn [map concat]. by rewrite app_assoc.
        -- simpl. lia.
        -- intros i t' Hi. destruct i as [|i].
           ++ injection Hi as <-. cbn [turn_depth turn_moves turn_both t].
              split; [by rewrite Nat.sub_0_r|]. split; [lia|]. congruence.
           ++ destruct (Hturns i t' Hi) as (Hd & Hm & Hb).
              split; [done|]. split; [rewrite Hm, length_app; simpl; lia|].
              intros Hf. destruct (Hb Hf) as [Hl He]. split; [simpl; lia|done].
        -- destruct (fst (debug_loop step fen ok_rest (countdown n) (moves ++ [k])
                            (snd (step (Z.of_nat (S n)) moves s)))) as [[]|e].
           ++ destruct Hout as (report & Hrep & Hcases).
              exists report. rewrite Hrep, Hpr. split; [done|].
              destruct Hcases as [[-> _]|[(v & p & t' & -> & Hlast & Hmv & Hlt)|[-> Hn]]].
              ** by left.
              ** right. left. exists v, p, t'. split; [done|].
                 split; [|split; [done|]].
                 { destruct turns as [|t0 turns]; [done|]. exact Hlast. }
                 rewrite length_app in Hlt. simpl in Hlt. lia.
              ** right. right. split; [done|]. simpl. lia.
           ++ destruct Hout as (Hrep & t' & s' & Hlast & Hs'). rewrite Hrep, Hpr.
              split; [done|]. exists t', s'. split; [|done].
              destruct turns as [|t0 turns]; [done|]. exact Hlast.
      * destruct (Hms Hncm) as [ms ->].
        assert (forall variation,
                   (payload <- get_payload v;;
                    print (ReportVariation v payload variation))
                     (snd (step (Z.of_nat (S n)) moves s))
                   = print (ReportVariation v (PMoves ms) variation)
                       (snd (step (Z.of_nat (S n)) moves s))) as Hget.
        { intros variation. rewrite bind_run. unfold get_payload at 1 2.
          by rewrite Hp. }
        assert (move_set_verdict v) as Hmv.
        { unfold move_set_verdict. destruct v; auto; done. }
        apply (single_turn_run n moves s t);
          [done|done|intros Hb; simpl in Hb; congruence| |].
        -- destruct v; try done; by rewrite Hget.
        -- destruct v; try done; rewrite Hget, (proj1 (print_run _ _));
             rewrite (proj2 (proj2 (print_run _ _))), Hpr;
             (eexists; split; [reflexivity|]; right; by eexists _, _).
    + apply (single_turn_run n moves s t);
        [done|done|intros _; by exists e|exact Hsp|].
      split; [exact Hpr|]. by exists s.
Qed.
End DriverFacts.

(** ** The loop of [debug] is the bisection *)

Lemma bisection_summary (step : Z -> list string -> M DebugResult)
    (fen ok_rest : string) (queries : Turn -> list Query) (n : nat)
    (moves : list string) (s : State) (turns : list Turn)
    (run : PyResult unit * State) :
  bisection step fen ok_rest queries n moves s turns run ->
  length turns <= n /\
  (forall i t, turns !! i = Some t ->
     turn_depth t = Z.of_nat (n - i) /\ length (turn_moves t) = length moves + i) /\
  spawned (snd run) = spawned s ++ concat (map queries turns) /\
  match fst run with
  | Raise e => printed (snd run) = printed s /\ turns <> []
  | Ok _ =>
      exists report, printed (snd run) = printed s ++ [report] /\
        ((report = ReportOK OK ok_rest /\ turns <> []) \/
         (exists v p path,
             report = ReportVariation v (PMoves p)
                        (fen +:+ " " +:+ py_join " " path) /\
             move_set_verdict v /\ length path < length moves + n) \/
         (report = ReportFailed /\ length turns = n))
  end.
Proof.
  assert (forall (n : nat) (moves : list string) (both : bool) (i : nat) (t : Turn),
            [mkTurn (Z.of_nat (S n)) moves both] !! i = Some t ->
            turn_depth t = Z.of_nat (S n - i) /\
            length (turn_moves t) = length moves + i) as Hsingle.
  { intros n0 moves0 both i t Hi. destruct i as [|i]; [|done].
    injection Hi as <-. cbn [turn_depth turn_moves]. rewrite Nat.sub_0_r.
    split; [done|lia]. }
  induction 1 as [moves s|n moves s s' e both Hstep Hsp Hpr
                  |n moves s s' Hstep Hsp Hpr
                  |n moves s s' v p Hstep Hv Hp Hsp Hpr
                  |n moves s s' k turns run Hstep Hp Hsp Hpr Hrest IH].
  - split; [done|]. split; [done|]. split; [simpl; by rewrite app_nil_r|].
    exists ReportFailed. split; [done|]. right. right. done.
  - split; [simpl; lia|]. split; [apply Hsingle|].
    split; [simpl; by rewrite app_nil_r|]. done.
  - split; [simpl; lia|]. split; [apply Hsingle|].
    split; [simpl; by rewrite app_nil_r|].
    exists (ReportOK OK ok_rest). cbn [print fst snd printed]. rewrite Hpr.
    split; [done|]. by left.
  - split; [simpl; lia|]. split; [apply Hsingle|].
    split; [simpl; by rewrite app_nil_r|].
    eexists. cbn [print fst snd printed]. rewrite Hpr. split; [done|].
    right. left. exists v, p, moves. split; [done|]. split; [done|]. lia.
  - destruct IH as (Hlen & Hturns & Hspawned & Hout).
    split; [simpl; lia|]. split; [|split].
    + intros i t Hi. destruct i as [|i].
      * injection Hi as <-. cbn [turn_depth turn_moves].
        rewrite Nat.sub_0_r. split; [done|lia].
      * destruct (Hturns i t Hi) as [Hd Hm]. split; [done|].
        rewrite Hm, length_app. simpl. lia.
    + rewrite Hspawned, Hsp. cbn [map concat]. by rewrite app_assoc.
    + destruct (fst run) as [[]|e].
      * destruct Hout as (report & Hrep & Hcases). exists report.
        rewrite Hrep, Hpr. split; [done|].
        destruct Hcases as [[-> _]|[(v & p & path & -> & Hv & Hlt)|[-> Hn]]].
        -- by left.
        -- right. left. exists v, p, path. split; [done|]. split; [done|].
           rewrite length_app in Hlt. simpl in Hlt. lia.
        -- right. right. split; [done|]. simpl. lia.
      * destruct Hout as [Hrep _]. rewrite Hrep, Hpr. done.
Qed.

(** The bisection leaves no choice: the verdicts of the turns decide the
    run. *)
Lemma bisection_decides (step : Z -> list string -> M DebugResult)
    (fen ok_rest : string) (queries : Turn -> list Query) (n : nat)
    (moves : list string) (s : State) (turns turns' : list Turn)
    (run run' : PyResult unit * State) :
  bisection step fen ok_rest queries n moves s turns run ->
  bisection step fen ok_rest queries n moves s turns' run' ->
  run = run'.
Proof.
  intros H. revert turns' run'.
  induction H as [moves s|n moves s s' e both Hstep Hsp Hpr
                  |n moves s s' Hstep Hsp Hpr
                  |n moves s s' v p Hstep Hv Hp Hsp Hpr
                  |n moves s s' k turns run Hstep Hp Hsp Hpr Hrest IH];
    intros turns' run' H'; inversion H'; subst;
    repeat match goal with
           | Hv : move_set_verdict _ |- _ => destruct Hv as [?|[?|?]]; subst
           end;
    try congruence.
  match goal with
  | Hrest' : bisection _ _ _ _ _ _ ?s0 _ _ |- _ =>
      assert (s' = s0) as <- by congruence
  end.
  match goal with
  | Hp' : payload_of s' COUNT_MISMATCH = Some (PMove ?k0) |- _ =>
      assert (k = k0) as <- by congruence
  end.
  eauto.
Qed.

Section BisectionFacts.
Variable step : Z -> list string -> M DebugResult.
Variables fen ok_rest : string.
Variable queries : Turn -> list Query.

Hypothesis step_spec : forall d moves s,
  exists both : bool,
    spawned (snd (step d moves s)) = spawned s ++ queries (mkTurn d moves both) /\
    printed (snd (step d moves s)) = printed s /\
    (both = false -> exists e, fst (step d moves s) = Raise e) /\
    (forall v, fst (step d moves s) = Ok v -> v <> OK ->
       exists p, payload_of (snd (step d moves s)) v = Some p /\
         (v = COUNT_MISMATCH -> exists k, p = PMove k) /\
         (v <> COUNT_MISMATCH -> exists ms, p = PMoves ms)).

Lemma debug_loop_bisection (n : nat) (moves : list string) (s : State) :
  exists turns : list Turn,
    bisection step fen ok_rest queries n moves s turns
      (debug_loop step fen ok_rest (countdown n) moves s).
Proof.
  revert moves s. induction n as [|n IH]; intros moves s.
  - exists []. apply bisection_exhausted.
  - change (countdown (S n)) with (Z.of_nat (S n) :: countdown n).
    cbn [debug_loop]. rewrite bind_run.
    destruct (step_spec (Z.of_nat (S n)) moves s) as (both & Hsp & Hpr & Hboth & Hload).
    destruct (step (Z.of_nat (S n)) moves s) as [r s'] eqn:Hstep.
    cbn [fst snd] in *. destruct r as [v|e].
    + assert (both = true) as ->.
      { destruct both; [done|]. destruct (Hboth eq_refl) as [e He]. discriminate. }
      destruct (decide (v = OK)) as [->|Hnok].
      { eexists. by apply bisection_agreed. }
      destruct (Hload v eq_refl Hnok) as (p & Hp & Hk & Hms).
      destruct (decide (v = COUNT_MISMATCH)) as [->|Hncm].
      * destruct (Hk eq_refl) as [k ->].
        rewrite bind_run. unfold get_payload at 1 2. rewrite Hp. cbn [fst snd].
        destruct (IH (moves ++ [k]) s') as [turns Hturns].
        eexists. by eapply bisection_descended.
      * destruct (Hms Hncm) as [ms ->].
        assert (move_set_verdict v) as Hmv.
        { unfold move_set_verdict. destruct v; auto; done. }
        assert ((match v with
                 | OK => print (ReportOK v ok_rest)
                 | COUNT_MISMATCH =>
                     payload <- get_payload v;;
                     match payload with
                     | PMove k => debug_loop step fen ok_rest (countdown n) (moves ++ [k])
                     | PMoves _ => raise TypeError
                     end
                 | _ =>
                     payload <- get_payload v;;
                     print (ReportVariation v payload (fen +:+ " " +:+ py_join " " moves))
                 end) s'
                = print (ReportVariation v (PMoves ms)
                           (fen +:+ " " +:+ py_join " " moves)) s') as ->.
        { destruct v; try done; rewrite bind_run; unfold get_payload at 1 2;
            by rewrite Hp. }
        eexists. by apply bisection_located.
    + eexists. by eapply bisection_raised.
Qed.

Lemma debug_loop_bisection_run (D : Z) (s : State) :
  bisection_run step fen ok_rest queries D s
    (debug_loop step fen ok_rest (py_range_down D) [] s).
Proof.
  unfold py_range_down.
  destruct (debug_loop_bisection (Z.to_nat D) [] s) as [turns Hturns].
  exists turns. split; [done|].
  destruct (bisection_summary _ _ _ _ _ _ _ _ _ Hturns) as (Hlen & Hfacts & Hsp & Hout).
  split; [done|]. split; [|split; [done|]].
  - intros i t Hi. destruct (Hfacts i t Hi) as [Hd Hm]. split; [|done].
    apply lookup_lt_Some in Hi. rewrite Hd. lia.
  - destruct (fst (debug_loop step fen ok_rest (countdown (Z.to_nat D)) [] s))
      as [[]|e]; [|done].
    destruct Hout as (report & Hrep & Hcases). exists report. split; [done|].
    destruct Hcases as [?|[(v & p & path & Hr & Hv & Hlt)|?]]; [by left| |by right; right].
    right. left. by exists v, p, path.
Qed.
End BisectionFacts.

(** ** The two drivers *)

Lemma debug_turn (ref eng fen : string) (d : Z) (moves : list string) (s : State) :
  exists both : bool,
    spawned (snd (PerftDebug._debug ref eng d fen (Some moves) s))
      = spawned s ++ turn_queries_debug ref eng fen (mkTurn d moves both) /\
    printed (snd (PerftDebug._debug ref eng d fen (Some moves) s)) = printed s /\
    (both = false -> exists e, fst (PerftDebug._debug ref eng d fen (Some moves) s) = Raise e) /\
    (forall v, fst (PerftDebug._debug ref eng d fen (Some moves) s) = Ok v -> v <> OK ->
       exists p, payload_of (snd (PerftDebug._debug ref eng d fen (Some moves) s)) v = Some p /\
         (v = COUNT_MISMATCH -> exists k, p = PMove k) /\
         (v <> COUNT_MISMATCH -> exists ms, p = PMoves ms)).
Proof.
  apply (two_sessions PerftDebug.line_matches eng ref
           (PerftDebug.request d fen (Some moves)) (PerftDebug.request d fen (Some moves)) s).
Qed.

Lemma debugger_turn (fen : string) (d : Z) (moves : list string) (s : State) :
  exists both : bool,
    spawned (snd (PerftDebugger._debug d (Some fen) (Some moves) s))
      = spawned s ++ turn_queries_debugger fen (mkTurn d moves both) /\
    printed (snd (PerftDebugger._debug d (Some fen) (Some moves) s)) = printed s /\
    (both = false -> exists e, fst (PerftDebugger._debug d (Some fen) (Some moves) s) = Raise e) /\
    (forall v, fst (PerftDebugger._debug d (Some fen) (Some moves) s) = Ok v -> v <> OK ->
       exists p, payload_of (snd (PerftDebugger._debug d (Some fen) (Some moves) s)) v = Some p /\
         (v = COUNT_MISMATCH -> exists k, p = PMove k) /\
         (v <> COUNT_MISMATCH -> exists ms, p = PMoves ms)).
Proof.
  apply (two_sessions PerftDebugger.line_matches ENGINE_PATH STOCKFISH_PATH
           (PerftDebugger.request "engine" d (Some fen) (Some moves))
           (PerftDebugger.request "stockfish" d (Some fen) (Some moves)) s).
Qed.

Lemma debug_run (py_int : string -> PyResult Z) (depth fen ref eng : string)
    (D : Z) (s : State) :
  py_int depth = Ok D ->
  loop_run (fun d moves => PerftDebug._debug ref eng d fen (Some moves))
    (Z.to_nat D) [] fen (" " +:+ fen +:+ " depth " +:+ depth)
    (turn_queries_debug ref eng fen) s (PerftDebug.debug py_int depth fen ref eng s).
Proof.
  intros HD. unfold PerftDebug.debug. rewrite bind_run. unfold lift at 1 2.
  cbn [fst snd]. rewrite HD. unfold py_range_down.
  apply debug_loop_run. intros d moves s0. apply debug_turn.
Qed.

Lemma debugger_run (D : Z) (fen : option string) (s : State) :
  let fen' := match fen with None => STARTING_FEN | Some fen => fen end in
  loop_run (fun d moves => PerftDebugger._debug d (Some fen') (Some moves))
    (Z.to_nat D) [] fen' "" (turn_queries_debugger fen') s
    (PerftDebugger.debug D fen s).
Proof.
  intros fen'. unfold PerftDebugger.debug. fold fen'. unfold py_range_down.
  apply debug_loop_run. intros d moves s0. apply debugger_turn.
Qed.

(** The end-to-end scenarios, on [perftdebugger.py]: agreement at once;
    an excess move at the root; a count that differs at every depth, which
    ends in the failure line. *)
Example debugger_agreement :
  printed (snd (PerftDebugger.debug 1 (Some sample_fen) (init_state (prints "e2e4: 20"))))
    = [ReportOK OK ""].
Proof. vm_compute. reflexivity. Qed.

Example debugger_excess :
  printed (snd (PerftDebugger.debug 1 (Some sample_fen) (init_state excessive)))
    = [ReportVariation EXCESS_MOVE (PMoves {["d2d4"]}) (sample_fen +:+ " ")].
Proof. vm_compute. reflexivity. Qed.

Example debugger_exhausted :
  printed (snd (PerftDebugger.debug 2 (Some sample_fen) (init_state disagreeing)))
    = [ReportFailed].
Proof. vm_compute. reflexivity. Qed.

(** With the pattern of [perftdebug.py] the same engines are reported to
    agree: none of their lines is read. *)
Example debug_reads_no_move :
  printed (snd (PerftDebug.debug decimal_int "1" sample_fen STOCKFISH_PATH ENGINE_PATH
                  (init_state excessive)))
    = [ReportOK OK (" " +:+ sample_fen +:+ " depth 1")].
Proof. vm_compute. reflexivity. Qed.

(** C4 (counterexample): in [perftdebugger.py] the two engines are not
    sent the same position request: at the second turn the engine under
    test reads [position fen <FEN> e2e4] and the reference engine
    [position fen <FEN> moves e2e4]. *)
Lemma debugger_position_requests_differ :
  map q_stdin
    (spawned (snd (PerftDebugger.debug 2 (Some sample_fen) (init_state disagreeing))))
    = [ ["position fen " +:+ sample_fen +:+ " " +:+ NL; "go perft 2" +:+ NL; "quit" +:+ NL];
        ["position fen " +:+ sample_fen +:+ " moves " +:+ NL; "go perft 2" +:+ NL; "quit" +:+ NL];
        ["position fen " +:+ sample_fen +:+ " e2e4" +:+ NL; "go perft 1" +:+ NL; "quit" +:+ NL];
        ["position fen " +:+ sample_fen +:+ " moves e2e4" +:+ NL; "go perft 1" +:+ NL; "quit" +:+ NL] ] /\
  "position fen " +:+ sample_fen +:+ " e2e4" +:+ NL
    <> "position fen " +:+ sample_fen +:+ " moves e2e4" +:+ NL.
Proof. split; [vm_compute; reflexivity | vm_compute; discriminate]. Qed.

(** C4 (amended): the conversations of a run of [debug] are those of its
    turns, and in every turn the engine under test and, unless the first
    run raised, the reference engine are given the same FEN, the same
    moves and the same depth.  In [perftdebug.py] the lines written to the
    two are the same; in [perftdebugger.py] the [go perft] line is the
    same and the position line of the engine under test lacks the word
    [moves]. *)
Theorem engines_asked_same_question :
  (forall py_int depth fen ref eng s, exists turns : list Turn,
      spawned (snd (PerftDebug.debug py_int depth fen ref eng s))
        = spawned s ++ concat (map (turn_queries_debug ref eng fen) turns) /\
      forall i t, turns !! i = Some t -> turn_both t = false ->
        S i = length turns /\
        exists e, fst (PerftDebug.debug py_int depth fen ref eng s) = Raise e) /\
  (forall depth fen s, exists turns : list Turn,
      let fen' := match fen with None => STARTING_FEN | Some fen => fen end in
      spawned (snd (PerftDebugger.debug depth fen s))
        = spawned s ++ concat (map (turn_queries_debugger fen') turns) /\
      forall i t, turns !! i = Some t -> turn_both t = false ->
        S i = length turns /\
        exists e, fst (PerftDebugger.debug depth fen s) = Raise e) /\
  (forall ref eng fen d moves,
      turn_queries_debug ref eng fen (mkTurn d moves true)
        = [mkQuery eng [spec_position fen moves; go_perft d; quit];
           mkQuery ref [spec_position fen moves; go_perft d; quit]]) /\
  (forall fen d moves,
      turn_queries_debugger fen (mkTurn d moves true)
        = [mkQuery ENGINE_PATH
             ["position fen " +:+ fen +:+ " " +:+ py_join " " moves +:+ NL;
              go_perft d; quit];
           mkQuery STOCKFISH_PATH [spec_position fen moves; go_perft d; quit]]).
Proof.
  split; [|split; [|split]].
  - intros py_int depth fen ref eng s. destruct (py_int depth) as [D|e] eqn:HD.
    + destruct (debug_run py_int depth fen ref eng D s HD)
        as (turns & Hsp & _ & Hturns & _).
      exists turns. split; [done|]. intros i t Hi Hb.
      destruct (Hturns i t Hi) as (_ & _ & Hraise). by apply Hraise.
    + exists []. unfold PerftDebug.debug. rewrite bind_run. unfold lift at 1 2.
      cbn [fst snd]. rewrite HD. simpl. rewrite app_nil_r. split; [done|].
      intros i t Hi. done.
  - intros depth fen s.
    destruct (debugger_run depth fen s) as (turns & Hsp & _ & Hturns & _).
    exists turns. split; [done|]. intros i t Hi Hb.
    destruct (Hturns i t Hi) as (_ & _ & Hraise). by apply Hraise.
  - reflexivity.
  - reflexivity.
Qed.

(** C5 (counterexample): an engine that prints a move without a count
    makes the first turn raise [ValueError]; the run ends with that
    exception and none of the three lines is printed. *)
Lemma debug_aborts_without_report :
  fst (PerftDebugger.debug 1 None (init_state (prints "e2e4"))) = Raise ValueError /\
  printed (snd (PerftDebugger.debug 1 None (init_state (prints "e2e4")))) = [] /\
  fst (PerftDebug.debug decimal_int "1" STARTING_FEN STOCKFISH_PATH ENGINE_PATH
         (init_state (prints "a11"))) = Raise ValueError /\
  printed (snd (PerftDebug.debug decimal_int "1" STARTING_FEN STOCKFISH_PATH ENGINE_PATH
                  (init_state (prints "a11")))) = [].
Proof. repeat split; vm_compute; reflexivity. Qed.

(** C5 (amended): for a depth [D >= 1] a run of [debug] is a run of the
    bisection: every turn but the last has the verdict [COUNT_MISMATCH]
    and adds the move it was loaded with to the path, and the last turn
    decides the end.  The loop takes at most [D] turns, turn [i] (from 0)
    at depth [D - i] with [i] moves on the path, and ends in one of four
    ways: a turn raises (which it does only when one of its two session
    runs raises) and the run ends with that exception and nothing printed;
    or exactly one line is printed, which is the agreement when the last
    verdict is [OK], or that verdict, its set of moves and a path of fewer
    than [D] moves when it is [MISSING_MOVE], [EXCESS_MOVE] or
    [DISAGREE_MOVE], or the failure line after [D] turns that all gave
    [COUNT_MISMATCH]. *)
Theorem debug_turns_and_outcome (D : Z) :
  (1 <= D)%Z ->
  (forall py_int depth fen ref eng s,
      py_int depth = Ok D ->
      bisection_run (fun d moves => PerftDebug._debug ref eng d fen (Some moves))
        fen (" " +:+ fen +:+ " depth " +:+ depth) (turn_queries_debug ref eng fen)
        D s (PerftDebug.debug py_int depth fen ref eng s)) /\
  (forall fen s,
      let fen' := match fen with None => STARTING_FEN | Some fen => fen end in
      bisection_run (fun d moves => PerftDebugger._debug d (Some fen') (Some moves))
        fen' "" (turn_queries_debugger fen') D s (PerftDebugger.debug D fen s)) /\
  (forall ref eng d fen moves s e,
      fst (PerftDebug._debug ref eng d fen moves s) = Raise e ->
      fst (PerftDebug._run eng d fen moves s) = Raise e \/
      fst (PerftDebug._run ref d fen moves (snd (PerftDebug._run eng d fen moves s)))
        = Raise e) /\
  (forall d fen moves s e,
      fst (PerftDebugger._debug d fen moves s) = Raise e ->
      fst (PerftDebugger._run "engine" d fen moves s) = Raise e \/
      fst (PerftDebugger._run "stockfish" d fen moves
             (snd (PerftDebugger._run "engine" d fen moves s))) = Raise e).
Proof.
  intros HD. split; [|split; [|split]].
  - intros py_int depth fen ref eng s Hint. unfold PerftDebug.debug.
    rewrite bind_run. unfold lift. cbn [fst snd]. rewrite Hint.
    apply debug_loop_bisection_run. intros d moves s0. apply debug_turn.
  - intros fen s. unfold PerftDebugger.debug.
    apply debug_loop_bisection_run. intros d moves s0. apply debugger_turn.
  - intros ref eng d fen moves s e. apply turn_raises.
  - intros d fen moves s e. apply turn_raises.
Qed.

Lemma debug_turns_and_outcome_witness :
  bisection_run
    (fun d moves => PerftDebug._debug STOCKFISH_PATH ENGINE_PATH d sample_fen (Some moves))
    sample_fen (" " +:+ sample_fen +:+ " depth " +:+ "2")
    (turn_queries_debug STOCKFISH_PATH ENGINE_PATH sample_fen) 2 (init_state disagreeing)
    (PerftDebug.debug decimal_int "2" sample_fen STOCKFISH_PATH ENGINE_PATH
       (init_state disagreeing)) /\
  bisection_run
    (fun d moves => PerftDebugger._debug d (Some sample_fen) (Some moves))
    sample_fen "" (turn_queries_debugger sample_fen) 2 (init_state disagreeing)
    (PerftDebugger.debug 2 (Some sample_fen) (init_state disagreeing)).
Proof.
  assert (1 <= 2)%Z as H12 by lia.
  destruct (debug_turns_and_outcome 2 H12) as (Hdebug & Hdebugger & _). split.
  - apply Hdebug. reflexivity.
  - apply (Hdebugger (Some sample_fen)).
Defined.

(** ** The position request *)

(** C8 (counterexample): the engine under test of [perftdebugger.py] is
    sent [position fen <FEN> e2e4], which has no [moves] clause before the
    move, and is not what the reference engine is sent. *)
Lemma debugger_position_without_moves_keyword :
  PerftDebugger.position "engine" (Some sample_fen) (Some ["e2e4"])
    = ["position fen " +:+ sample_fen +:+ " e2e4" +:+ NL] /\
  ~ spec_position_form sample_fen ["e2e4"]
      ("position fen " +:+ sample_fen +:+ " e2e4" +:+ NL) /\
  PerftDebugger.position "engine" (Some sample_fen) (Some ["e2e4"])
    <> PerftDebugger.position "stockfish" (Some sample_fen) (Some ["e2e4"]).
Proof.
  split; [reflexivity|]. split.
  - intros [H|[H _]]; [vm_compute in H|]; discriminate.
  - vm_compute. discriminate.
Qed.

(** C8 (amended): given a FEN and a list of moves, [_run] of
    [perftdebug.py] writes [position fen <FEN> moves <move1> <move2> ...]
    to whichever engine it runs, and [_run] of [perftdebugger.py] writes
    that line to the reference engine ([stockfish]) and
    [position fen <FEN> <move1> <move2> ...], without the word [moves], to
    any other engine.  With no moves the [moves] clause of the first form
    is sent empty. *)
Theorem position_request_sent (s : State) (depth : Z) (fen : string)
    (moves : list string) :
  (forall path,
      spawned (snd (PerftDebug._run path depth fen (Some moves) s))
        = spawned s ++ [mkQuery path [spec_position fen moves; go_perft depth; quit]]) /\
  spawned (snd (PerftDebugger._run "stockfish" depth (Some fen) (Some moves) s))
    = spawned s ++
      [mkQuery STOCKFISH_PATH [spec_position fen moves; go_perft depth; quit]] /\
  (forall engine, engine <> "stockfish" ->
      spawned (snd (PerftDebugger._run engine depth (Some fen) (Some moves) s))
        = spawned s ++
          [mkQuery ENGINE_PATH
             ["position fen " +:+ fen +:+ " " +:+ py_join " " moves +:+ NL;
              go_perft depth; quit]]) /\
  spec_position fen [] = "position fen " +:+ fen +:+ " moves " +:+ NL.
Proof.
  split; [|split; [|split]].
  - intros path. unfold PerftDebug._run. by rewrite session_run.
  - unfold PerftDebugger._run. by rewrite session_run.
  - intros engine Hne. unfold PerftDebugger._run. rewrite session_run.
    unfold PerftDebugger.path_of, PerftDebugger.request, PerftDebugger.position.
    by apply String.eqb_neq in Hne as ->.
  - reflexivity.
Qed.

Lemma position_request_sent_witness :
  spawned (snd (PerftDebugger._run "engine" 1 (Some sample_fen) (Some ["e2e4"])
                  (init_state silent)))
    = [mkQuery ENGINE_PATH
         ["position fen " +:+ sample_fen +:+ " " +:+ py_join " " ["e2e4"] +:+ NL;
          go_perft 1; quit]].
Proof.
  destruct (position_request_sent (init_state silent) 1 sample_fen ["e2e4"])
    as (_ & _ & H & _).
  apply (H "engine"). vm_compute. discriminate.
Defined.

(** ** The theorems at concrete inputs *)

Lemma lines_of_a11_abc (line : string) :
  line ∈ py_split newline "a11: abc" -> line = "a11: abc".
Proof. intros H. by apply list_elem_of_singleton in H. Qed.

Lemma run_checks_no_count_witness :
  (exists d, fst (PerftDebug._run ENGINE_PATH 1 sample_fen (Some [])
                    (init_state (prints "a11: abc"))) = Ok d /\
             "a11" ∈ dict_keys d) /\
  (exists d, fst (PerftDebugger._run "engine" 1 (Some sample_fen) (Some [])
                    (init_state (prints "a11: abc"))) = Ok d /\
             "a11" ∈ dict_keys d).
Proof.
  destruct (run_checks_no_count (init_state (prints "a11: abc")) "a11: abc" 1 (Some []))
    as [Hdebug Hdebugger].
  split.
  - destruct (Hdebug ENGINE_PATH sample_fen) as (d & Hd & Hkeys).
    + reflexivity.
    + intros line Hin _. apply lines_of_a11_abc in Hin as ->. reflexivity.
    + exists d. split; [done|].
      apply (Hkeys "a11: abc" "a11" " abc"); [left|reflexivity|reflexivity].
  - destruct (Hdebugger "engine" (Some sample_fen)) as (d & Hd & Hkeys).
    + reflexivity.
    + intros line Hin _. apply lines_of_a11_abc in Hin as ->. reflexivity.
    + exists d. split; [done|].
      apply (Hkeys "a11: abc" "a11" " abc"); [left|reflexivity|reflexivity].
Defined.

Lemma run_unsplittable_line_witness :
  fst (PerftDebug._run ENGINE_PATH 1 sample_fen (Some [])
         (init_state (prints "a11"))) = Raise ValueError /\
  fst (PerftDebugger._run "engine" 1 (Some sample_fen) (Some [])
         (init_state (prints "a1:1:1"))) = Raise ValueError.
Proof.
  split.
  - destruct (run_unsplittable_line (init_state (prints "a11")) "a11" 1 (Some []))
      as [Hdebug _].
    destruct (Hdebug ENGINE_PATH sample_fen) as [Hraise _]; [reflexivity|].
    apply (Hraise "a11"); [left|reflexivity|vm_compute; lia].
  - destruct (run_unsplittable_line (init_state (prints "a1:1:1")) "a1:1:1" 1 (Some []))
      as [_ Hdebugger].
    destruct (Hdebugger "engine" (Some sample_fen)) as [Hraise _]; [reflexivity|].
    apply (Hraise "a1:1:1"); [left|reflexivity|vm_compute; lia].
Defined.

Lemma engines_asked_same_question_witness :
  exists turns : list Turn,
    spawned (snd (PerftDebugger.debug 2 (Some sample_fen) (init_state disagreeing)))
      = [] ++ concat (map (turn_queries_debugger sample_fen) turns) /\
    forall i t, turns !! i = Some t -> turn_both t = false ->
      S i = length turns /\
      exists e, fst (PerftDebugger.debug 2 (Some sample_fen) (init_state disagreeing))
                = Raise e.
Proof.
  destruct engines_asked_same_question as (_ & Hdebugger & _).
  apply (Hdebugger 2%Z (Some sample_fen) (init_state disagreeing)).
Defined.

(** * Further properties of the scripts *)

(** ** What the parse loop keeps *)

Lemma dict_get_set_ne (d : PyDict) (k k' : string) (v : PyVal) :
  k' <> k -> dict_get (dict_set d k v) k' = dict_get d k'.
Proof.
  intros Hne. induction d as [|[k0 v0] d IH]; simpl.
  - destruct (String.eqb_spec k k') as [->|_]; [done|reflexivity].
  - destruct (String.eqb_spec k0 k) as [->|Hk0]; simpl.
    + destruct (String.eqb_spec k k') as [->|_]; [done|reflexivity].
    + destruct (String.eqb_spec k0 k'); [reflexivity|exact IH].
Qed.

Section ParseLoopKeeps.
Variable line_matches : string -> bool.

(** The record a line holds for the loop: its move and its count. *)
Local Abbreviation records line move node_count :=
  (line_matches line = true /\ py_split colon line = [move; node_count]).

Lemma parse_lines_filter (response : list string) (result : PyDict) :
  parse_lines line_matches response result
  = parse_lines line_matches (List.filter line_matches response) result.
Proof.
  revert result. induction response as [|line rest IH]; intros result; [reflexivity|].
  simpl. destruct (line_matches line) eqn:Hm; [|apply IH].
  simpl. rewrite Hm.
  destruct (py_split colon line) as [|a [|b [|x l]]]; try reflexivity. apply IH.
Qed.

Lemma parse_lines_keys (response : list string) (result d : PyDict) :
  parse_lines line_matches response result = Ok d ->
  forall k, k ∈ dict_keys d <->
    k ∈ dict_keys result \/
    exists line node_count, line ∈ response /\ records line k node_count.
Proof.
  revert result. induction response as [|line rest IH]; intros result Hd k.
  - injection Hd as <-. split; [by left|].
    intros [H|(l & c & Hin & _)]; [done|by apply elem_of_nil in Hin].
  - simpl in Hd. destruct (line_matches line) eqn:Hm.
    + destruct (py_split colon line) as [|a [|b [|x l]]] eqn:Hs; try discriminate.
      rewrite (IH _ Hd k), dict_keys_set. split.
      * intros [[->|H]|(l & c & Hin & Hl)].
        -- right. exists line, b. split; [left|]. by rewrite Hs.
        -- by left.
        -- right. exists l, c. split; [by right|done].
      * intros [H|(l & c & Hin & Hlm & Hl)]; [left; by right|].
        apply elem_of_cons in Hin as [->|Hin].
        -- left. left. rewrite Hs in Hl. by injection Hl as -> _.
        -- right. by exists l, c.
    + rewrite (IH _ Hd k). split.
      * intros [H|(l & c & Hin & Hl)]; [by left|].
        right. exists l, c. split; [by right|done].
      * intros [H|(l & c & Hin & Hlm & Hl)]; [by left|].
        apply elem_of_cons in Hin as [->|Hin]; [congruence|].
        right. by exists l, c.
Qed.

(** Lines that hold no record for [k] leave the value of [k] alone. *)
Lemma parse_lines_untouched (response : list string) (result d : PyDict) (k : string) :
  parse_lines line_matches response result = Ok d ->
  (forall line node_count, line ∈ response -> ~ records line k node_count) ->
  dict_get d k = dict_get result k.
Proof.
  revert result. induction response as [|line rest IH]; intros result Hd Hno.
  - by injection Hd as <-.
  - simpl in Hd. destruct (line_matches line) eqn:Hm.
    + destruct (py_split colon line) as [|a [|b [|x l]]] eqn:Hs; try discriminate.
      rewrite (IH _ Hd).
      * apply dict_get_set_ne. intros ->. apply (Hno line b); [left|]. by rewrite Hs.
      * intros l c Hin. apply Hno. by right.
    + apply (IH _ Hd). intros l c Hin. apply Hno. by right.
Qed.

Lemma parse_lines_last (pre post : list string) (line k node_count : string)
    (result d : PyDict) :
  parse_lines line_matches (pre ++ line :: post) result = Ok d ->
  records line k node_count ->
  (forall later c, later ∈ post -> ~ records later k c) ->
  dict_get d k = Some (PyStr node_count).
Proof.
  revert result. induction pre as [|l0 pre IH]; intros result Hd [Hm Hs] Hpost.
  - simpl in Hd. rewrite Hm, Hs in Hd.
    rewrite (parse_lines_untouched _ _ _ _ Hd Hpost). apply dict_get_set.
  - simpl in Hd. destruct (line_matches l0).
    + destruct (py_split colon l0) as [|a [|b [|x l]]]; try discriminate.
      by apply (IH _ Hd).
    + by apply (IH _ Hd).
Qed.
End ParseLoopKeeps.

(** X1: when a session returns, the keys of its mapping are exactly the
    moves of the answer's record lines (the lines that pass the pattern,
    cut at their colon), and no key occurs twice. *)
Theorem session_keys_exact (line_matches : string -> bool) (path : string)
    (lines : list string) (s : State) (out : string) (d : PyDict) :
  response_of s (mkQuery path lines) = Ok out ->
  fst (session line_matches path lines s) = Ok d ->
  dict_wf d = true /\
  forall k, k ∈ dict_keys d <->
    exists line node_count,
      line ∈ py_split newline out /\ line_matches line = true /\
      py_split colon line = [k; node_count].
Proof.
  intros Hout. rewrite session_run, Hout. cbn [fst]. unfold parse_response.
  intros Hd. split.
  - destruct (parse_lines_splittable line_matches (py_split newline out) [])
      as (d' & Hd' & Hwf & _).
    + apply Forall_forall. intros line Hin Hbad.
      assert (parse_lines line_matches (py_split newline out) [] = Raise ValueError)
        as Hr; [|congruence].
      apply parse_lines_unsplittable, Exists_exists. by exists line.
    + rewrite Hd in Hd'. injection Hd' as <-. by apply Hwf.
  - intros k. rewrite (parse_lines_keys _ _ _ _ Hd k). split.
    + intros [H|H]; [by apply elem_of_nil in H|done].
    + intros H. by right.
Qed.

Lemma session_keys_exact_witness :
  dict_wf [("e2e4", PyStr " 20"); ("d2d4", PyStr " 21")] = true /\
  forall k, k ∈ dict_keys [("e2e4", PyStr " 20"); ("d2d4", PyStr " 21")] <->
    exists line node_count,
      line ∈ py_split newline ("e2e4: 20" +:+ NL +:+ "d2d4: 21") /\
      PerftDebugger.line_matches line = true /\
      py_split colon line = [k; node_count].
Proof.
  apply (session_keys_exact PerftDebugger.line_matches ENGINE_PATH [quit]
           (init_state (prints ("e2e4: 20" +:+ NL +:+ "d2d4: 21")))).
  - reflexivity.
  - reflexivity.
Defined.

(** X2: when an answer has several record lines for one move, the mapping
    holds the count of the last of them. *)
Theorem session_last_record_wins (line_matches : string -> bool) (path : string)
    (lines : list string) (s : State) (out : string) (d : PyDict)
    (pre post : list string) (line k node_count : string) :
  response_of s (mkQuery path lines) = Ok out ->
  fst (session line_matches path lines s) = Ok d ->
  py_split newline out = pre ++ line :: post ->
  line_matches line = true -> py_split colon line = [k; node_count] ->
  (forall later c, later ∈ post ->
     ~ (line_matches later = true /\ py_split colon later = [k; c])) ->
  dict_get d k = Some (PyStr node_count).
Proof.
  intros Hout. rewrite session_run, Hout. cbn [fst]. unfold parse_response.
  intros Hd Hsplit Hm Hs Hpost. rewrite Hsplit in Hd.
  by apply (parse_lines_last line_matches pre post line k node_count [] d).
Qed.

Lemma session_last_record_wins_witness :
  dict_get [("e2e4", PyStr " 21")] "e2e4" = Some (PyStr " 21").
Proof.
  apply (session_last_record_wins PerftDebugger.line_matches ENGINE_PATH [quit]
           (init_state (prints ("e2e4: 20" +:+ NL +:+ "e2e4: 21")))
           ("e2e4: 20" +:+ NL +:+ "e2e4: 21") _ ["e2e4: 20"] [] "e2e4: 21" "e2e4" " 21").
  - reflexivity.
  - reflexivity.
  - reflexivity.
  - reflexivity.
  - reflexivity.
  - intros later c Hin. by apply elem_of_nil in Hin.
Defined.

(** X3: lines that do not pass the pattern have no effect: two answers
    with the same passing lines, in the same order, give the same result,
    be it a mapping or the [ValueError]. *)
Theorem session_ignores_other_lines (line_matches : string -> bool)
    (p1 p2 : string) (l1 l2 : list string) (s1 s2 : State) (out1 out2 : string) :
  response_of s1 (mkQuery p1 l1) = Ok out1 ->
  response_of s2 (mkQuery p2 l2) = Ok out2 ->
  List.filter line_matches (py_split newline out1)
    = List.filter line_matches (py_split newline out2) ->
  fst (session line_matches p1 l1 s1) = fst (session line_matches p2 l2 s2).
Proof.
  intros H1 H2 Hsame. rewrite !session_run, H1, H2. cbn [fst].
  unfold parse_response.
  rewrite (parse_lines_filter line_matches (py_split newline out1)).
  rewrite (parse_lines_filter line_matches (py_split newline out2)).
  by rewrite Hsame.
Qed.

Lemma session_ignores_other_lines_witness :
  fst (session PerftDebugger.line_matches ENGINE_PATH [quit]
         (init_state (prints ("info" +:+ NL +:+ "e2e4: 20" +:+ NL +:+ NL +:+ "Nodes searched: 20"))))
  = fst (session PerftDebugger.line_matches ENGINE_PATH [quit]
           (init_state (prints "e2e4: 20"))).
Proof.
  apply (session_ignores_other_lines PerftDebugger.line_matches ENGINE_PATH ENGINE_PATH
           [quit] [quit] _ _
           ("info" +:+ NL +:+ "e2e4: 20" +:+ NL +:+ NL +:+ "Nodes searched: 20") "e2e4: 20").
  - reflexivity.
  - reflexivity.
  - reflexivity.
Defined.

(** ** What a verdict tells *)

(** The scan either finds every item of the tested mapping in the
    reference, or stops at the first item whose count differs. *)
Lemma scan_counts_spec (items : list (string * PyVal)) (reference : PyDict) :
  (forall k v, (k, v) ∈ items -> k ∈ key_set reference) ->
  ((forall k v, (k, v) ∈ items -> dict_get reference k = Some v) /\
   forall s, scan_counts items reference s = (Ok OK, s)) \/
  exists pre k v w post,
    items = pre ++ (k, v) :: post /\
    (forall k' v', (k', v') ∈ pre -> dict_get reference k' = Some v') /\
    dict_get reference k = Some w /\ w <> v /\
    forall s, scan_counts items reference s = load COUNT_MISMATCH (PMove k) s.
Proof.
  induction items as [|[k v] items IH]; intros Hall.
  - left. split; [by intros k v ?%elem_of_nil|done].
  - assert (is_Some (dict_get reference k)) as [w Hw].
    { apply dict_get_is_Some. apply (Hall k v). left. }
    destruct (decide (w = v)) as [->|Hne].
    + destruct IH as [[Hagree Hok]|(pre & k' & v' & w' & post & -> & Hpre & Hk' & Hne & Hload)].
      * intros k' v' Hin. apply (Hall k' v'). by right.
      * left. split.
        -- intros k' v' [[= -> ->]|Hin]%elem_of_cons; [done|by apply Hagree].
        -- intros s. simpl. rewrite Hw.
           rewrite bool_decide_false by (intros Hx; by apply Hx). apply Hok.
      * right. exists ((k, v) :: pre), k', v', w', post. split; [done|].
        split; [|split; [done|split; [done|]]].
        -- intros k0 v0 [[= -> ->]|Hin]%elem_of_cons; [done|by apply Hpre].
        -- intros s. simpl. rewrite Hw.
           rewrite bool_decide_false by (intros Hx; by apply Hx). apply Hload.
    + right. exists [], k, v, w, items. split; [done|].
      split; [by intros k' v' ?%elem_of_nil|]. split; [done|]. split; [done|].
      intros s. simpl. rewrite Hw. by rewrite bool_decide_true.
Qed.

Lemma keys_in_reference (tested reference : PyDict) :
  key_set tested = key_set reference ->
  forall k v, (k, v) ∈ tested -> k ∈ key_set reference.
Proof.
  intros Heq k v Hin. rewrite <- Heq. apply key_set_elem. by apply (elem_key _ k v).
Qed.

Lemma compare_differ_member (tested reference : PyDict) (s : State) :
  key_set tested <> key_set reference ->
  exists v p, move_set_verdict v /\
    _debug_compare tested reference s = load v (PMoves p) s.
Proof.
  intros Hne. unfold _debug_compare, move_set_verdict.
  rewrite bool_decide_true by done.
  destruct (size (key_set reference) <? size (key_set tested))%nat; [eauto 6|].
  destruct (size (key_set tested) <? size (key_set reference))%nat; eauto 6.
Qed.

Lemma compare_key_keys_cases (tested reference : PyDict) (s : State) :
  key_set tested <> key_set reference ->
  let egn_moves := key_set tested in
  let sf_moves := key_set reference in
  (size sf_moves < size egn_moves /\
   _debug_compare tested reference s = load EXCESS_MOVE (PMoves (egn_moves ∖ sf_moves)) s) \/
  (size egn_moves < size sf_moves /\
   _debug_compare tested reference s = load MISSING_MOVE (PMoves (sf_moves ∖ egn_moves)) s) \/
  (size egn_moves = size sf_moves /\
   _debug_compare tested reference s
   = load DISAGREE_MOVE (PMoves (sym_diff egn_moves sf_moves)) s).
Proof.
  intros Hne egn_moves sf_moves. unfold _debug_compare. fold egn_moves sf_moves.
  rewrite bool_decide_true by done.
  destruct (Nat.ltb_spec (size sf_moves) (size egn_moves)); [by left|].
  destruct (Nat.ltb_spec (size egn_moves) (size sf_moves)); [right; by left|].
  right. right. split; [lia|done].
Qed.

(** X4: the comparator answers [OK] exactly when the two mappings have
    the same keys and the same count at every key. *)
Theorem compare_ok_iff_same_counts (tested reference : PyDict) (s : State) :
  dict_wf tested = true ->
  (fst (_debug_compare tested reference s) = Ok OK <->
   forall k, dict_get tested k = dict_get reference k).
Proof.
  intros Hwf. split.
  - intros Hok.
    destruct (decide (key_set tested = key_set reference)) as [Heq|Hne].
    + rewrite compare_equal_keys in Hok by done.
      destruct (scan_counts_spec tested reference (keys_in_reference _ _ Heq))
        as [[Hagree _]|(pre & k & v & w & post & _ & _ & _ & _ & Hload)].
      * intros k. destruct (dict_get tested k) as [v|] eqn:E.
        -- symmetry. apply Hagree. by apply dict_get_Some_elem.
        -- symmetry. apply dict_get_None. rewrite <- key_set_elem, <- Heq, key_set_elem.
           by apply dict_get_None.
      * rewrite Hload in Hok. discriminate.
    + destruct (compare_differ_member tested reference s Hne) as (v & p & Hv & Hload).
      rewrite Hload in Hok. injection Hok as ->.
      destruct Hv as [?|[?|?]]; discriminate.
  - intros Hsame.
    assert (key_set tested = key_set reference) as Heq.
    { apply set_eq. intros k. by rewrite <- !dict_get_is_Some, Hsame. }
    rewrite compare_equal_keys by done.
    rewrite scan_counts_agree; [done|].
    intros k v Hin. rewrite <- Hsame. by apply dict_get_elem.
Qed.

Lemma compare_ok_iff_same_counts_witness :
  fst (_debug_compare dA dD (init_state silent)) = Ok OK <->
  forall k, dict_get dA k = dict_get dD k.
Proof. apply (compare_ok_iff_same_counts dA dD (init_state silent)). reflexivity. Defined.

(** X5: a [COUNT_MISMATCH] verdict names a move that both mappings have,
    with different counts, and every item the tested mapping lists before
    that move has the same count in the reference. *)
Theorem count_mismatch_is_real (tested reference : PyDict) (s : State) (p : Payload) :
  verdict tested reference s = Ok (COUNT_MISMATCH, Some p) ->
  key_set tested = key_set reference /\
  exists pre k v w post,
    p = PMove k /\ tested = pre ++ (k, v) :: post /\
    dict_get reference k = Some w /\ w <> v /\
    forall k' v', (k', v') ∈ pre -> dict_get reference k' = Some v'.
Proof.
  intros Hv.
  destruct (decide (key_set tested = key_set reference)) as [Heq|Hne].
  - split; [done|].
    destruct (scan_counts_spec tested reference (keys_in_reference _ _ Heq))
      as [[_ Hok]|(pre & k & v & w & post & Ht & Hpre & Hk & Hne & Hload)].
    + unfold verdict in Hv. rewrite compare_equal_keys, Hok in Hv by done.
      discriminate.
    + rewrite (verdict_load tested reference s COUNT_MISMATCH (PMove k)) in Hv
        by (rewrite compare_equal_keys by done; apply Hload).
      injection Hv as <-. by exists pre, k, v, w, post.
  - destruct (compare_differ_member tested reference s Hne) as (v & q & Hm & Hload).
    rewrite (verdict_load _ _ _ _ _ Hload) in Hv.
    injection Hv as -> _. destruct Hm as [?|[?|?]]; discriminate.
Qed.

Lemma count_mismatch_is_real_witness :
  key_set dD = key_set dA /\
  exists pre k v w post,
    PMove "d2d4" = PMove k /\ dD = pre ++ (k, v) :: post /\
    dict_get dA k = Some w /\ w <> v /\
    forall k' v', (k', v') ∈ pre -> dict_get dA k' = Some v'.
Proof.
  apply (count_mismatch_is_real dD dA (init_state silent)). vm_compute. reflexivity.
Defined.

Lemma difference_empty_subseteq (a b : gset string) : a ∖ b = ∅ -> a ⊆ b.
Proof.
  intros H k Hk. destruct (decide (k ∈ b)) as [|Hnb]; [done|]. exfalso.
  assert (k ∈ a ∖ b) as Hx by (by apply elem_of_difference).
  rewrite H in Hx. by apply elem_of_empty in Hx.
Qed.

Lemma sym_diff_empty (a b : gset string) : sym_diff a b = ∅ -> a = b.
Proof.
  unfold sym_diff. intros [Hab Hba]%empty_union_L.
  apply difference_empty_subseteq in Hab, Hba. apply set_eq. intros k.
  split; [apply Hab|apply Hba].
Qed.

(** X6: a move-set verdict comes only for different key sets, and its
    payload is never empty: it names at least one move, each of them
    reported by exactly one of the two engines. *)
Theorem move_set_verdict_names_moves (tested reference : PyDict) (s : State)
    (v : DebugResult) (p : Payload) :
  move_set_verdict v ->
  verdict tested reference s = Ok (v, Some p) ->
  key_set tested <> key_set reference /\
  exists moves, p = PMoves moves /\ moves <> ∅ /\
    forall k, k ∈ moves ->
      (k ∈ key_set tested /\ k ∉ key_set reference) \/
      (k ∈ key_set reference /\ k ∉ key_set tested).
Proof.
  intros Hmv Hv.
  destruct (decide (key_set tested = key_set reference)) as [Heq|Hne].
  - exfalso.
    destruct (scan_counts_total tested reference (keys_in_reference _ _ Heq))
      as [Hok|(k & _ & Hload)].
    + unfold verdict in Hv. rewrite compare_equal_keys, Hok in Hv by done.
      injection Hv as <- _. destruct Hmv as [?|[?|?]]; discriminate.
    + rewrite (verdict_load tested reference s COUNT_MISMATCH (PMove k)) in Hv
        by (rewrite compare_equal_keys by done; apply Hload).
      injection Hv as <- _. destruct Hmv as [?|[?|?]]; discriminate.
  - split; [done|].
    destruct (compare_key_keys_cases tested reference s Hne)
      as [(Hlt & Hl)|[(Hlt & Hl)|(Hlt & Hl)]];
      rewrite (verdict_load _ _ _ _ _ Hl) in Hv; injection Hv as <- <-;
      eexists; (split; [reflexivity|]); split.
    + intros Hempty. apply difference_empty_subseteq, subseteq_size in Hempty. lia.
    + intros k Hk%elem_of_difference. by left.
    + intros Hempty. apply difference_empty_subseteq, subseteq_size in Hempty. lia.
    + intros k Hk%elem_of_difference. by right.
    + intros Hempty. apply Hne. by apply sym_diff_empty.
    + intros k. rewrite sym_diff_elem. tauto.
Qed.

Lemma move_set_verdict_names_moves_witness :
  key_set dA <> key_set dB /\
  exists moves, PMoves {["d2d4"]} = PMoves moves /\ moves <> ∅ /\
    forall k, k ∈ moves ->
      (k ∈ key_set dA /\ k ∉ key_set dB) \/ (k ∈ key_set dB /\ k ∉ key_set dA).
Proof.
  apply (move_set_verdict_names_moves dA dB (init_state silent) EXCESS_MOVE).
  - right. left. reflexivity.
  - vm_compute. reflexivity.
Defined.

Lemma sym_diff_comm (a b : gset string) : sym_diff a b = sym_diff b a.
Proof. unfold sym_diff. apply set_eq. intros k. rewrite !elem_of_union. tauto. Qed.

(** X7: exchanging the two mappings exchanges [EXCESS_MOVE] and
    [MISSING_MOVE], with the same payload, and keeps [DISAGREE_MOVE] with
    its payload. *)
Theorem compare_swapped (tested reference : PyDict) (s : State) (moves : gset string) :
  (verdict tested reference s = Ok (EXCESS_MOVE, Some (PMoves moves)) <->
   verdict reference tested s = Ok (MISSING_MOVE, Some (PMoves moves))) /\
  (verdict tested reference s = Ok (DISAGREE_MOVE, Some (PMoves moves)) <->
   verdict reference tested s = Ok (DISAGREE_MOVE, Some (PMoves moves))).
Proof.
  assert (forall t r v p, key_set t = key_set r -> v <> OK -> v <> COUNT_MISMATCH ->
            verdict t r s <> Ok (v, Some p)) as Hequal.
  { intros t r v p Heq Hv1 Hv2 Hv.
    destruct (scan_counts_total t r (keys_in_reference _ _ Heq)) as [Hok|(k & _ & Hload)].
    - unfold verdict in Hv. rewrite compare_equal_keys, Hok in Hv by done. congruence.
    - rewrite (verdict_load t r s COUNT_MISMATCH (PMove k)) in Hv
        by (rewrite compare_equal_keys by done; apply Hload).
      congruence. }
  assert (forall t r,
            (verdict t r s = Ok (EXCESS_MOVE, Some (PMoves moves)) ->
             verdict r t s = Ok (MISSING_MOVE, Some (PMoves moves))) /\
            (verdict t r s = Ok (MISSING_MOVE, Some (PMoves moves)) ->
             verdict r t s = Ok (EXCESS_MOVE, Some (PMoves moves))) /\
            (verdict t r s = Ok (DISAGREE_MOVE, Some (PMoves moves)) ->
             verdict r t s = Ok (DISAGREE_MOVE, Some (PMoves moves)))) as Hswap.
  { intros t r.
    destruct (decide (key_set t = key_set r)) as [Heq|Hne].
    { repeat split; intros Hv; exfalso; by apply (Hequal t r _ _ Heq) in Hv. }
    assert (key_set r <> key_set t) as Hne' by congruence.
    destruct (compare_key_keys_cases t r s Hne) as [(Hlt & Hl)|[(Hlt & Hl)|(Hlt & Hl)]];
      rewrite (verdict_load _ _ _ _ _ Hl);
      destruct (compare_key_keys_cases r t s Hne') as [(Hlt' & Hl')|[(Hlt' & Hl')|(Hlt' & Hl')]];
      try lia; rewrite (verdict_load _ _ _ _ _ Hl');
      repeat split; intros [= <-]; try reflexivity.
    by rewrite sym_diff_comm. }
  split; split; apply Hswap.
Qed.

Lemma scan_counts_ext (items : list (string * PyVal)) (r r' : PyDict) (s : State) :
  (forall k, dict_get r' k = dict_get r k) ->
  scan_counts items r' s = scan_counts items r s.
Proof.
  intros Hsame. induction items as [|[k v] items IH]; simpl; [reflexivity|].
  rewrite Hsame. destruct (dict_get r k); [|reflexivity].
  case_bool_decide; [reflexivity|exact IH].
Qed.

Lemma compare_same_keys (t t' r : PyDict) (s : State) :
  key_set t' = key_set t -> key_set t <> key_set r ->
  _debug_compare t' r s = _debug_compare t r s.
Proof.
  intros Heq Hne. unfold _debug_compare. rewrite Heq.
  by rewrite bool_decide_true by done.
Qed.

(** X8: which member the comparator returns does not depend on the order
    in which either mapping lists its items, and the order of the
    reference mapping changes nothing at all; only the move loaded with
    [COUNT_MISMATCH] can change with the order of the tested mapping. *)
Theorem compare_order (tested tested' reference reference' : PyDict) (s : State) :
  dict_wf reference = true ->
  tested' ≡ₚ tested -> reference' ≡ₚ reference ->
  _debug_compare tested reference' s = _debug_compare tested reference s /\
  fst (_debug_compare tested' reference' s) = fst (_debug_compare tested reference s) /\
  (fst (_debug_compare tested reference s) <> Ok COUNT_MISMATCH ->
   _debug_compare tested' reference' s = _debug_compare tested reference s).
Proof.
  intros Hwf Hpt Hpr.
  assert (forall t, _debug_compare t reference' s = _debug_compare t reference s) as Href.
  { intros t. unfold _debug_compare. rewrite (key_set_perm _ _ Hpr).
    case_bool_decide; [reflexivity|].
    apply scan_counts_ext. intros k. by apply dict_get_perm. }
  split; [apply Href|]. rewrite Href.
  pose proof (key_set_perm _ _ Hpt) as Hkeys.
  destruct (decide (key_set tested = key_set reference)) as [Heq|Hne].
  - assert (key_set tested' = key_set reference) as Heq' by congruence.
    rewrite !compare_equal_keys by done.
    destruct (scan_counts_spec tested reference (keys_in_reference _ _ Heq))
      as [[Hagree Hok]|(pre & k & v & w & post & Ht & Hpre & Hk & Hw & Hload)];
    destruct (scan_counts_spec tested' reference (keys_in_reference _ _ Heq'))
      as [[Hagree' Hok']|(pre' & k' & v' & w' & post' & Ht' & Hpre' & Hk' & Hw' & Hload')].
    + rewrite Hok, Hok'. done.
    + exfalso. apply Hw'. enough (Some w' = Some v') by congruence.
      rewrite <- Hk'. apply Hagree. rewrite <- Hpt, Ht'.
      apply elem_of_app. right. left.
    + exfalso. apply Hw. enough (Some w = Some v) by congruence.
      rewrite <- Hk. apply Hagree'. rewrite Hpt, Ht.
      apply elem_of_app. right. left.
    + rewrite Hload, Hload'. split; [reflexivity|]. intros Hx. by exfalso; apply Hx.
  - rewrite (compare_same_keys tested tested' reference s Hkeys Hne). done.
Qed.

Lemma compare_order_witness :
  _debug_compare dD [("d2d4", PyStr " 20"); ("e2e4", PyStr " 20")] (init_state silent)
    = _debug_compare dD dA (init_state silent) /\
  fst (_debug_compare [("e2e4", PyStr " 20"); ("d2d4", PyStr " 21")]
         [("d2d4", PyStr " 20"); ("e2e4", PyStr " 20")] (init_state silent))
    = fst (_debug_compare dD dA (init_state silent)) /\
  (fst (_debug_compare dD dA (init_state silent)) <> Ok COUNT_MISMATCH ->
   _debug_compare [("e2e4", PyStr " 20"); ("d2d4", PyStr " 21")]
     [("d2d4", PyStr " 20"); ("e2e4", PyStr " 20")] (init_state silent)
   = _debug_compare dD dA (init_state silent)).
Proof.
  apply (compare_order dD _ dA _ (init_state silent)).
  - reflexivity.
  - apply perm_swap.
  - apply perm_swap.
Defined.

(** ** The drivers at their bounds *)

Lemma debug_after_int (py_int : string -> PyResult Z) (depth fen ref eng : string)
    (s : State) :
  PerftDebug.debug py_int depth fen ref eng s
  = match py_int depth with
    | Ok n =>
        debug_loop (fun d moves => PerftDebug._debug ref eng d fen (Some moves)) fen
          (" " +:+ fen +:+ " depth " +:+ depth) (py_range_down n) [] s
    | Raise e => (Raise e, s)
    end.
Proof.
  unfold PerftDebug.debug. rewrite bind_run. unfold lift. cbn [fst snd].
  by destruct (py_int depth).
Qed.

(** X9: with a depth of zero or less the loop of [debug] has no turn: no
    engine is run and the failure line is printed.  In [perftdebug.py],
    when [int] raises on the depth, [debug] ends with that exception
    before any engine is run and before anything is printed. *)
Theorem debug_without_turns (D : Z) (s : State) :
  (D <= 0)%Z ->
  (forall fen,
      fst (PerftDebugger.debug D fen s) = Ok tt /\
      spawned (snd (PerftDebugger.debug D fen s)) = spawned s /\
      printed (snd (PerftDebugger.debug D fen s)) = printed s ++ [ReportFailed]) /\
  (forall py_int depth fen ref eng,
      py_int depth = Ok D ->
      fst (PerftDebug.debug py_int depth fen ref eng s) = Ok tt /\
      spawned (snd (PerftDebug.debug py_int depth fen ref eng s)) = spawned s /\
      printed (snd (PerftDebug.debug py_int depth fen ref eng s))
      = printed s ++ [ReportFailed]) /\
  (forall py_int depth fen ref eng e,
      py_int depth = Raise e ->
      PerftDebug.debug py_int depth fen ref eng s = (Raise e, s)).
Proof.
  intros HD.
  assert (py_range_down D = []) as Hrange.
  { unfold py_range_down. by replace (Z.to_nat D) with 0 by lia. }
  split; [|split].
  - intros fen. unfold PerftDebugger.debug. rewrite Hrange. apply print_run.
  - intros py_int depth fen ref eng Hint. rewrite debug_after_int, Hint, Hrange.
    apply print_run.
  - intros py_int depth fen ref eng e Hint. by rewrite debug_after_int, Hint.
Qed.

Lemma debug_without_turns_witness :
  printed (snd (PerftDebugger.debug 0 None (init_state silent))) = [] ++ [ReportFailed] /\
  printed (snd (PerftDebug.debug decimal_int "0" sample_fen STOCKFISH_PATH ENGINE_PATH
                  (init_state silent))) = [] ++ [ReportFailed].
Proof.
  assert (0 <= 0)%Z as H0 by lia.
  destruct (debug_without_turns 0 (init_state silent) H0) as (Hdebugger & Hdebug & _).
  split.
  - apply (Hdebugger None).
  - apply (Hdebug decimal_int "0" sample_fen STOCKFISH_PATH ENGINE_PATH). reflexivity.
Defined.





(** ** The path of the bisection *)

Lemma report_spawned (v : DebugResult) (variation : string) (s : State) :
  spawned (snd ((payload <- get_payload v;;
                 print (ReportVariation v payload variation)) s)) = spawned s.
Proof. unfold bind, get_payload. by destruct (payload_of s v). Qed.

Lemma descend_run (v : DebugResult) (descend : string -> M unit) (s : State) :
  (payload <- get_payload v;;
   match payload with
   | PMove k => descend k
   | PMoves _ => raise TypeError
   end) s
  = match payload_of s v with
    | Some (PMove k) => descend k s
    | Some (PMoves _) => (Raise TypeError, s)
    | None => (Raise AttributeError, s)
    end.
Proof. unfold bind, get_payload. by destruct (payload_of s v) as [[ms|k]|]. Qed.

Section DriverPath.
Variable step : Z -> list string -> M DebugResult.
Variables fen ok_rest : string.
Variable queries : Turn -> list Query.

Hypothesis step_queries : forall d moves s,
  exists both : bool,
    spawned (snd (step d moves s)) = spawned s ++ queries (mkTurn d moves both).

Lemma debug_loop_path (ds : list Z) (moves : list string) (s : State) :
  exists turns : list Turn,
    spawned (snd (debug_loop step fen ok_rest ds moves s))
      = spawned s ++ concat (map queries turns) /\
    (forall t, turns !! 0 = Some t -> turn_moves t = moves) /\
    (forall i t t', turns !! i = Some t -> turns !! S i = Some t' ->
       exists k, turn_moves t' = turn_moves t ++ [k]).
Proof.
  revert moves s. induction ds as [|d ds IH]; intros moves s.
  - exists []. simpl. rewrite app_nil_r. done.
  - cbn [debug_loop]. rewrite bind_run.
    destruct (step_queries d moves s) as [both Hsp].
    assert (forall run : PyResult unit * State,
              spawned (snd run) = spawned (snd (step d moves s)) ->
              exists turns : list Turn,
                spawned (snd run) = spawned s ++ concat (map queries turns) /\
                (forall t, turns !! 0 = Some t -> turn_moves t = moves) /\
                (forall i t t', turns !! i = Some t -> turns !! S i = Some t' ->
                   exists k, turn_moves t' = turn_moves t ++ [k])) as Hone.
    { intros run Hrun. exists [mkTurn d moves both]. split; [|split].
      - rewrite Hrun, Hsp. simpl. by rewrite app_nil_r.
      - by intros t [= <-].
      - intros i t t' _ Hi. done. }
    destruct (fst (step d moves s)) as [v|e]; [|by apply Hone].
    destruct v; try (apply Hone; apply report_spawned).
    + by apply Hone.
    + rewrite descend_run.
      destruct (payload_of (snd (step d moves s)) COUNT_MISMATCH) as [[ms|k]|];
        [by apply Hone| |by apply Hone].
      destruct (IH (moves ++ [k]) (snd (step d moves s))) as (turns & Hsp' & Hhead & Hnext).
      exists (mkTurn d moves both :: turns). split; [|split].
      * rewrite Hsp', Hsp. cbn [map concat]. by rewrite app_assoc.
      * by intros t [= <-].
      * intros i t t' Hi Hi'. destruct i as [|i].
        -- injection Hi as <-. exists k. by apply Hhead.
        -- by apply (Hnext i).
Qed.
End DriverPath.

(** X11: the move path of a run of [debug] only grows: the first turn is
    asked with no moves, and each later turn with the moves of the turn
    before it followed by one more move. *)
Theorem debug_path_grows :
  (forall py_int depth fen ref eng s, exists turns : list Turn,
      spawned (snd (PerftDebug.debug py_int depth fen ref eng s))
        = spawned s ++ concat (map (turn_queries_debug ref eng fen) turns) /\
      (forall t, turns !! 0 = Some t -> turn_moves t = []) /\
      (forall i t t', turns !! i = Some t -> turns !! S i = Some t' ->
         exists k, turn_moves t' = turn_moves t ++ [k])) /\
  (forall depth fen s, exists turns : list Turn,
      let fen' := match fen with None => STARTING_FEN | Some fen => fen end in
      spawned (snd (PerftDebugger.debug depth fen s))
        = spawned s ++ concat (map (turn_queries_debugger fen') turns) /\
      (forall t, turns !! 0 = Some t -> turn_moves t = []) /\
      (forall i t t', turns !! i = Some t -> turns !! S i = Some t' ->
         exists k, turn_moves t' = turn_moves t ++ [k])).
Proof.
  split.
  - intros py_int depth fen ref eng s. rewrite debug_after_int.
    destruct (py_int depth) as [n|e].
    + apply debug_loop_path. intros d moves s0.
      destruct (debug_turn ref eng fen d moves s0) as (both & Hsp & _). by exists both.
    + exists []. simpl. rewrite app_nil_r. done.
  - intros depth fen s. unfold PerftDebugger.debug.
    apply debug_loop_path. intros d moves s0.
    destruct (debugger_turn (match fen with None => STARTING_FEN | Some fen => fen end)
                d moves s0) as (both & Hsp & _).
    by exists both.
Qed.

(** ** From the engines' answers to the report *)

Lemma first_turn_reports (step : Z -> list string -> M DebugResult)
    (fen ok_rest : string) (d : Z) (ds : list Z) (moves : list string)
    (s s' : State) (v : DebugResult) :
  step d moves s = (Ok v, s') ->
  (v = OK ->
   debug_loop step fen ok_rest (d :: ds) moves s = print (ReportOK OK ok_rest) s') /\
  (forall p, move_set_verdict v -> payload_of s' v = Some p ->
   debug_loop step fen ok_rest (d :: ds) moves s
   = print (ReportVariation v p (fen +:+ " " +:+ py_join " " moves)) s').
Proof.
  intros Hstep. cbn [debug_loop]. rewrite bind_run, Hstep. cbn [fst snd]. split.
  - by intros ->.
  - intros p Hv Hp.
    destruct Hv as [-> | [-> | ->]]; rewrite bind_run; unfold get_payload;
      by rewrite Hp.
Qed.

Lemma turn_of_sessions (line_matches : string -> bool) (p1 p2 : string)
    (l1 l2 : list string) (s : State) (d1 d2 : PyDict) :
  fst (session line_matches p1 l1 s) = Ok d1 ->
  fst (session line_matches p2 l2 (snd (session line_matches p1 l1 s))) = Ok d2 ->
  (chess_perft <- session line_matches p1 l1;;
   stockfish_perft <- session line_matches p2 l2;;
   _debug_compare chess_perft stockfish_perft) s
  = _debug_compare d1 d2
      (snd (session line_matches p2 l2 (snd (session line_matches p1 l1 s)))).
Proof.
  intros H1 H2. rewrite bind_run, H1, bind_run, H2. reflexivity.
Qed.

Lemma compare_returns (tested reference : PyDict) (s : State) :
  exists v, fst (_debug_compare tested reference s) = Ok v /\
    printed (snd (_debug_compare tested reference s)) = printed s.
Proof.
  destruct (compare_cases tested reference) as [Hok|(v & p & _ & _ & _ & Hload)].
  - exists OK. by rewrite Hok.
  - exists v. by rewrite Hload.
Qed.

Lemma root_turn_reports (step : Z -> list string -> M DebugResult)
    (line_matches : string -> bool) (p1 p2 : string) (l1 l2 : list string)
    (fen ok_rest : string) (d : Z) (ds : list Z) (s : State) (d1 d2 : PyDict) :
  step d [] = (chess_perft <- session line_matches p1 l1;;
               stockfish_perft <- session line_matches p2 l2;;
               _debug_compare chess_perft stockfish_perft) ->
  let s1 := snd (session line_matches p1 l1 s) in
  let s2 := snd (session line_matches p2 l2 s1) in
  fst (session line_matches p1 l1 s) = Ok d1 ->
  fst (session line_matches p2 l2 s1) = Ok d2 ->
  (fst (_debug_compare d1 d2 s2) = Ok OK ->
   printed (snd (debug_loop step fen ok_rest (d :: ds) [] s))
   = printed s ++ [ReportOK OK ok_rest]) /\
  (forall v p, move_set_verdict v -> verdict d1 d2 s2 = Ok (v, Some p) ->
   printed (snd (debug_loop step fen ok_rest (d :: ds) [] s))
   = printed s ++ [ReportVariation v p (fen +:+ " ")]).
Proof.
  intros Hstep s1 s2 H1 H2.
  assert (step d [] s = _debug_compare d1 d2 s2) as Hturn.
  { rewrite Hstep. by apply turn_of_sessions. }
  assert (printed s2 = printed s) as Hpr.
  { unfold s2, s1. by rewrite !session_run. }
  destruct (compare_returns d1 d2 s2) as (v0 & Hv0 & Hpr').
  destruct (_debug_compare d1 d2 s2) as [r s'] eqn:Hcmp. cbn [fst snd] in *.
  subst r. destruct (first_turn_reports step fen ok_rest d ds [] s s' v0 Hturn)
    as [Hok Hset].
  split.
  - intros [= ->]. rewrite (Hok eq_refl). cbn [print snd printed].
    by rewrite Hpr', Hpr.
  - intros v p Hv Hverdict. unfold verdict in Hverdict. rewrite Hcmp in Hverdict.
    injection Hverdict as <- Hp.
    rewrite (Hset p Hv Hp). cbn [print snd printed]. by rewrite Hpr', Hpr.
Qed.

(** X12: the report follows from the two answers at the root.  When, at
    depth [D >= 1] and with no moves, the two runs return mappings that
    compare [OK], [debug] prints the agreement line; when they compare to
    a move-set verdict, it prints that verdict with its payload and, as
    variation, the FEN followed by one space. *)
Theorem root_verdict_reported (D : Z) (s : State) (d1 d2 : PyDict) :
  (1 <= D)%Z ->
  (forall fen,
      let fen' := match fen with None => STARTING_FEN | Some fen => fen end in
      let s1 := snd (PerftDebugger._run "engine" D (Some fen') (Some []) s) in
      let s2 := snd (PerftDebugger._run "stockfish" D (Some fen') (Some []) s1) in
      fst (PerftDebugger._run "engine" D (Some fen') (Some []) s) = Ok d1 ->
      fst (PerftDebugger._run "stockfish" D (Some fen') (Some []) s1) = Ok d2 ->
      (fst (_debug_compare d1 d2 s2) = Ok OK ->
       printed (snd (PerftDebugger.debug D fen s)) = printed s ++ [ReportOK OK ""]) /\
      (forall v p, move_set_verdict v -> verdict d1 d2 s2 = Ok (v, Some p) ->
       printed (snd (PerftDebugger.debug D fen s))
       = printed s ++ [ReportVariation v p (fen' +:+ " ")])) /\
  (forall py_int depth fen ref eng,
      let s1 := snd (PerftDebug._run eng D fen (Some []) s) in
      let s2 := snd (PerftDebug._run ref D fen (Some []) s1) in
      py_int depth = Ok D ->
      fst (PerftDebug._run eng D fen (Some []) s) = Ok d1 ->
      fst (PerftDebug._run ref D fen (Some []) s1) = Ok d2 ->
      (fst (_debug_compare d1 d2 s2) = Ok OK ->
       printed (snd (PerftDebug.debug py_int depth fen ref eng s))
       = printed s ++ [ReportOK OK (" " +:+ fen +:+ " depth " +:+ depth)]) /\
      (forall v p, move_set_verdict v -> verdict d1 d2 s2 = Ok (v, Some p) ->
       printed (snd (PerftDebug.debug py_int depth fen ref eng s))
       = printed s ++ [ReportVariation v p (fen +:+ " ")])).
Proof.
  intros HD.
  assert (exists n, py_range_down D = D :: countdown n) as [n Hrange].
  { unfold py_range_down. destruct (Z.to_nat D) as [|n] eqn:Hn; [lia|].
    exists n. cbn [countdown]. f_equal. lia. }
  split.
  - intros fen fen' s1 s2 H1 H2. unfold PerftDebugger.debug. fold fen'.
    rewrite Hrange.
    by apply (root_turn_reports _ PerftDebugger.line_matches ENGINE_PATH STOCKFISH_PATH
                (PerftDebugger.request "engine" D (Some fen') (Some []))
                (PerftDebugger.request "stockfish" D (Some fen') (Some []))).
  - intros py_int depth fen ref eng s1 s2 Hint H1 H2.
    rewrite debug_after_int, Hint, Hrange.
    by apply (root_turn_reports _ PerftDebug.line_matches eng ref
                (PerftDebug.request D fen (Some [])) (PerftDebug.request D fen (Some []))).
Qed.

Lemma root_verdict_reported_witness :
  printed (snd (PerftDebugger.debug 1 (Some sample_fen) (init_state excessive)))
  = [] ++ [ReportVariation EXCESS_MOVE (PMoves {["d2d4"]}) (sample_fen +:+ " ")].
Proof.
  assert (1 <= 1)%Z as H1 by lia.
  destruct (root_verdict_reported 1 (init_state excessive) dA dB H1) as [Hdebugger _].
  destruct (Hdebugger (Some sample_fen)) as [_ Hset]; [reflexivity|reflexivity|].
  apply (Hset EXCESS_MOVE (PMoves {["d2d4"]})).
  - right. left. reflexivity.
  - vm_compute. reflexivity.
Defined.

(** ** The two patterns *)

Lemma file_is_no_rank (c : ascii) : is_file c = true -> is_rank c = false.
Proof.
  destruct c as [[] [] [] [] [] [] [] []]; vm_compute; intros H;
    first [reflexivity | discriminate H].
Qed.

(** What [perftdebug.py] reads, [perftdebugger.py] reads too. *)
Lemma patterns_nested (line : string) :
  PerftDebug.line_matches line = true -> PerftDebugger.line_matches line = true.
Proof.
  destruct line as [|c1 [|c2 [|c3 rest]]]; simpl; try discriminate.
  by intros [H _]%andb_true_iff.
Qed.

Lemma uci_move_line_patterns (line : string) :
  uci_move_line line = true ->
  PerftDebug.line_matches line = false /\ PerftDebugger.line_matches line = true.
Proof.
  destruct line as [|f1 [|r1 [|f2 [|r2 rest]]]]; simpl; try discriminate.
  intros [[[H1 H2]%andb_true_iff H3]%andb_true_iff H4]%andb_true_iff.
  rewrite H1, H2, (file_is_no_rank f2 H3). done.
Qed.

Lemma parse_lines_none (line_matches : string -> bool) (response : list string)
    (result : PyDict) :
  (forall line, line ∈ response -> line_matches line = false) ->
  parse_lines line_matches response result = Ok result.
Proof.
  induction response as [|line rest IH]; intros Hnone; [reflexivity|].
  simpl. rewrite (Hnone line) by left. apply IH. intros l Hl. apply Hnone. by right.
Qed.

(** X13: [perftdebug.py] reads no move in coordinate notation: a line
    that starts with file, rank, file, rank fails its pattern (and passes
    that of [perftdebugger.py]).  So when every line that the engines
    answer at the root either starts with such a move or does not start
    with a square at all, both mappings are empty and [debug] prints the
    agreement line after the first turn, whatever the engines counted. *)
Theorem debug_blind_to_coordinate_moves (py_int : string -> PyResult Z) (D : Z)
    (depth fen ref eng : string) (s : State) (out1 out2 : string) :
  (1 <= D)%Z -> py_int depth = Ok D ->
  response_of s (mkQuery eng (PerftDebug.request D fen (Some []))) = Ok out1 ->
  response_of (asked s (mkQuery eng (PerftDebug.request D fen (Some []))))
    (mkQuery ref (PerftDebug.request D fen (Some []))) = Ok out2 ->
  (forall line, line ∈ py_split newline out1 ++ py_split newline out2 ->
     uci_move_line line = true \/ PerftDebugger.line_matches line = false) ->
  fst (PerftDebug._run eng D fen (Some []) s) = Ok [] /\
  fst (PerftDebug.debug py_int depth fen ref eng s) = Ok tt /\
  printed (snd (PerftDebug.debug py_int depth fen ref eng s))
  = printed s ++ [ReportOK OK (" " +:+ fen +:+ " depth " +:+ depth)] /\
  spawned (snd (PerftDebug.debug py_int depth fen ref eng s))
  = spawned s ++ [mkQuery eng (PerftDebug.request D fen (Some []));
                  mkQuery ref (PerftDebug.request D fen (Some []))].
Proof.
  intros HD Hint Hout1 Hout2 Hlines.
  assert (forall line, line ∈ py_split newline out1 ++ py_split newline out2 ->
                       PerftDebug.line_matches line = false) as Hnone.
  { intros line Hin. destruct (Hlines line Hin) as [Huci|Hno].
    - by apply uci_move_line_patterns.
    - destruct (PerftDebug.line_matches line) eqn:E; [|done].
      apply patterns_nested in E. congruence. }
  set (q1 := mkQuery eng (PerftDebug.request D fen (Some []))) in *.
  set (q2 := mkQuery ref (PerftDebug.request D fen (Some []))) in *.
  assert (PerftDebug._run eng D fen (Some []) s = (Ok [], asked s q1)) as Hrun1.
  { unfold PerftDebug._run. rewrite session_run. fold q1. rewrite Hout1.
    unfold parse_response. rewrite parse_lines_none; [done|].
    intros line Hin. apply Hnone, elem_of_app. by left. }
  assert (PerftDebug._run ref D fen (Some []) (asked s q1) = (Ok [], asked (asked s q1) q2))
    as Hrun2.
  { unfold PerftDebug._run. rewrite session_run. fold q2. rewrite Hout2.
    unfold parse_response. rewrite parse_lines_none; [done|].
    intros line Hin. apply Hnone, elem_of_app. by right. }
  split; [by rewrite Hrun1|].
  assert (exists n, py_range_down D = D :: countdown n) as [n Hrange].
  { unfold py_range_down. destruct (Z.to_nat D) as [|n] eqn:Hn; [lia|].
    exists n. cbn [countdown]. f_equal. lia. }
  rewrite debug_after_int, Hint, Hrange.
  assert (PerftDebug._debug ref eng D fen (Some []) s = (Ok OK, asked (asked s q1) q2))
    as Hturn.
  { unfold PerftDebug._debug. rewrite bind_run, Hrun1. cbn [fst snd].
    rewrite bind_run, Hrun2. reflexivity. }
  destruct (first_turn_reports
              (fun d moves => PerftDebug._debug ref eng d fen (Some moves)) fen
              (" " +:+ fen +:+ " depth " +:+ depth) D (countdown n) [] s _ OK Hturn)
    as [Hok _].
  rewrite (Hok eq_refl). cbn [print fst snd printed spawned asked].
  rewrite <- app_assoc. done.
Qed.

Lemma debug_blind_to_coordinate_moves_witness :
  fst (PerftDebug._run ENGINE_PATH 1 sample_fen (Some []) (init_state excessive)) = Ok [] /\
  fst (PerftDebug.debug decimal_int "1" sample_fen STOCKFISH_PATH ENGINE_PATH
         (init_state excessive))
  = Ok tt /\
  printed (snd (PerftDebug.debug decimal_int "1" sample_fen STOCKFISH_PATH ENGINE_PATH
                  (init_state excessive)))
  = [] ++ [ReportOK OK (" " +:+ sample_fen +:+ " depth " +:+ "1")] /\
  spawned (snd (PerftDebug.debug decimal_int "1" sample_fen STOCKFISH_PATH ENGINE_PATH
                  (init_state excessive)))
  = [] ++ [mkQuery ENGINE_PATH (PerftDebug.request 1 sample_fen (Some []));
           mkQuery STOCKFISH_PATH (PerftDebug.request 1 sample_fen (Some []))].
Proof.
  apply (debug_blind_to_coordinate_moves decimal_int 1 "1" sample_fen STOCKFISH_PATH
           ENGINE_PATH
           (init_state excessive) ("e2e4: 20" +:+ NL +:+ "d2d4: 20") "e2e4: 20").
  - lia.
  - reflexivity.
  - reflexivity.
  - reflexivity.
  - intros line Hin. left.
    repeat (apply elem_of_cons in Hin as [->|Hin]; [reflexivity|]).
    by apply elem_of_nil in Hin.
Defined.

(** ** [main] and the words of the command line *)

Lemma py_split_nonempty (c : ascii) (s : string) : py_split c s <> [].
Proof.
  pose proof (py_split_length c s) as H. intros Heq. rewrite Heq in H. done.
Qed.

Lemma concat_cons (sep x : string) (l : list string) :
  l <> [] -> String.concat sep (x :: l) = x +:+ sep +:+ String.concat sep l.
Proof. by destruct l. Qed.

(** Joining what a split gave, with the separator, gives the string
    back. *)
Lemma py_join_split (c : ascii) (s : string) :
  py_join (String c "") (py_split c s) = s.
Proof.
  unfold py_join. induction s as [|a s IH]; [reflexivity|].
  simpl. destruct (Ascii.eqb_spec a c) as [->|Hne].
  - rewrite concat_cons by apply py_split_nonempty. simpl. by rewrite IH.
  - destruct (py_split c s) as [|piece pieces] eqn:E; [by apply py_split_nonempty in E|].
    rewrite <- IH. by destruct pieces.
Qed.

(** X14: [main] hands the options to [debug] in the order depth, FEN,
    reference, engine.  An option given as one word arrives as that word,
    and a FEN given as the words between its spaces arrives as the FEN
    itself; with no option at all [debug] gets depth ["5"], the starting
    position, [stockfish] and [./target/debug/chess]. *)
Theorem main_passes_arguments (py_int : string -> PyResult Z)
    (depth fen ref eng : string) (s : State) :
  main py_int (mkNamespace (ArgList [ref]) (ArgList [eng]) (ArgList [depth])
                 (ArgList (py_split space fen))) s
  = PerftDebug.debug py_int depth fen ref eng s /\
  main py_int (mkNamespace (ArgStr ref) (ArgStr eng) (ArgStr depth) (ArgStr fen)) s
  = PerftDebug.debug py_int depth fen ref eng s /\
  main py_int default_args s
  = PerftDebug.debug py_int "5" STARTING_FEN STOCKFISH_PATH ENGINE_PATH s.
Proof.
  split; [|done]. unfold main. cbn [ns_depth ns_fen ns_ref ns_eng join_arg].
  change " " with (String space ""). rewrite py_join_split.
  unfold py_join. simpl. done.
Qed.

(** ** What the mapping is made of *)

Lemma py_split_pieces (c x : ascii) (s piece : string) :
  piece ∈ py_split c s ->
  count_char c piece = 0 /\ count_char x piece <= count_char x s.
Proof.
  revert piece. induction s as [|a s IH]; intros piece Hin.
  - apply list_elem_of_singleton in Hin as ->. done.
  - simpl in Hin. destruct (Ascii.eqb_spec a c) as [->|Hne].
    + apply elem_of_cons in Hin as [->|Hin]; [simpl; split; [done|lia]|].
      destruct (IH piece Hin) as [H1 H2]. split; [done|]. simpl. lia.
    + destruct (py_split c s) as [|p0 pieces] eqn:E; [by apply py_split_nonempty in E|].
      apply elem_of_cons in Hin as [->|Hin].
      * destruct (IH p0) as [H1 H2]; [left|]. simpl. split.
        -- by apply Ascii.eqb_neq in Hne as ->.
        -- destruct (Ascii.eqb a x); simpl; lia.
      * destruct (IH piece) as [H1 H2]; [by right|]. split; [done|]. simpl. lia.
Qed.

Lemma dict_set_elem (d : PyDict) (k : string) (v : PyVal) (item : string * PyVal) :
  item ∈ dict_set d k v -> item = (k, v) \/ item ∈ d.
Proof.
  induction d as [|[k0 v0] d IH]; simpl.
  - intros H%list_elem_of_singleton. by left.
  - destruct (String.eqb_spec k0 k) as [->|Hne].
    + intros [->|H]%elem_of_cons; [by left|]. right. by right.
    + intros [->|H]%elem_of_cons; [right; left|].
      destruct (IH H) as [?|?]; [by left|]. right. by right.
Qed.

Lemma parse_lines_items (line_matches : string -> bool) (response : list string)
    (result d : PyDict) (item : string * PyVal) :
  parse_lines line_matches response result = Ok d -> item ∈ d ->
  item ∈ result \/
  exists line node_count,
    line ∈ response /\ line_matches line = true /\
    py_split colon line = [fst item; node_count] /\ snd item = PyStr node_count.
Proof.
  revert result. induction response as [|line rest IH]; intros result Hd Hin.
  - injection Hd as <-. by left.
  - simpl in Hd. destruct (line_matches line) eqn:Hm.
    + destruct (py_split colon line) as [|a [|b [|x l]]] eqn:Hs; try discriminate.
      destruct (IH _ Hd Hin) as [Hset|(l & c & Hl & Hrest)].
      * apply dict_set_elem in Hset as [->|Hres]; [|by left].
        right. exists line, b. split; [left|]. by rewrite Hs.
      * right. exists l, c. split; [by right|done].
    + destruct (IH _ Hd Hin) as [?|(l & c & Hl & Hrest)]; [by left|].
      right. exists l, c. split; [by right|done].
Qed.

(** X15: every entry of a mapping that a session returns maps a move to
    a text, never to an integer: the key is what the record line has
    before its colon and the value what it has after it, blanks included,
    and neither contains a colon or a line break. *)
Theorem session_entries_are_text (line_matches : string -> bool) (path : string)
    (lines : list string) (s : State) (out : string) (d : PyDict)
    (k : string) (v : PyVal) :
  response_of s (mkQuery path lines) = Ok out ->
  fst (session line_matches path lines s) = Ok d ->
  (k, v) ∈ d ->
  exists line node_count,
    line ∈ py_split newline out /\ line_matches line = true /\
    line = k +:+ ":" +:+ node_count /\ v = PyStr node_count /\
    count_char colon k = 0 /\ count_char newline k = 0 /\
    count_char colon node_count = 0 /\ count_char newline node_count = 0.
Proof.
  intros Hout. rewrite session_run, Hout. cbn [fst]. unfold parse_response.
  intros Hd Hin.
  destruct (parse_lines_items _ _ _ _ _ Hd Hin) as [Hnil|(line & c & Hl & Hm & Hs & Hv)];
    [by apply elem_of_nil in Hnil|].
  simpl in Hs, Hv. exists line, c. split; [done|]. split; [done|].
  destruct (py_split_pieces newline newline out line Hl) as [Hnl _].
  assert (k ∈ py_split colon line) as Hk by (rewrite Hs; left).
  assert (c ∈ py_split colon line) as Hc by (rewrite Hs; right; left).
  destruct (py_split_pieces colon newline line k Hk) as [Hk1 Hk2].
  destruct (py_split_pieces colon newline line c Hc) as [Hc1 Hc2].
  split; [|split; [done|repeat split; [done|lia|done|lia]]].
  pose proof (py_join_split colon line) as Hjoin. rewrite Hs in Hjoin.
  unfold py_join in Hjoin. simpl in Hjoin. by rewrite <- Hjoin.
Qed.

Lemma session_entries_are_text_witness :
  exists line node_count,
    line ∈ py_split newline "e2e4: 20" /\ PerftDebugger.line_matches line = true /\
    line = "e2e4" +:+ ":" +:+ node_count /\ PyStr " 20" = PyStr node_count /\
    count_char colon "e2e4" = 0 /\ count_char newline "e2e4" = 0 /\
    count_char colon node_count = 0 /\ count_char newline node_count = 0.
Proof.
  apply (session_entries_are_text PerftDebugger.line_matches ENGINE_PATH [quit]
           (init_state (prints "e2e4: 20")) "e2e4: 20" [("e2e4", PyStr " 20")]).
  - reflexivity.
  - reflexivity.
  - left.
Defined.

(** X16: on one and the same answer, whenever [_run] of
    [perftdebugger.py] returns a mapping, [_run] of [perftdebug.py] returns
    one too, and every move it holds is a move of the other's mapping. *)
Theorem debugger_reads_what_debug_reads (p1 p2 : string) (l1 l2 : list string)
    (s1 s2 : State) (out : string) (d2 : PyDict) :
  response_of s1 (mkQuery p1 l1) = Ok out ->
  response_of s2 (mkQuery p2 l2) = Ok out ->
  fst (session PerftDebugger.line_matches p2 l2 s2) = Ok d2 ->
  exists d1, fst (session PerftDebug.line_matches p1 l1 s1) = Ok d1 /\
    forall k, k ∈ dict_keys d1 -> k ∈ dict_keys d2.
Proof.
  intros H1 H2. rewrite !session_run, H1, H2. cbn [fst]. unfold parse_response.
  intros Hd2.
  destruct (parse_lines_splittable PerftDebug.line_matches (py_split newline out) [])
    as (d1 & Hd1 & _).
  - apply Forall_forall. intros line Hin [Hm Hc].
    assert (parse_lines PerftDebugger.line_matches (py_split newline out) []
            = Raise ValueError) as Hr; [|congruence].
    apply parse_lines_unsplittable, Exists_exists. exists line.
    split; [done|]. split; [by apply patterns_nested|done].
  - exists d1. split; [done|]. intros k Hk.
    apply (parse_lines_keys _ _ _ _ Hd1) in Hk as [Hk|(line & c & Hin & Hm & Hs)];
      [by apply elem_of_nil in Hk|].
    apply (parse_lines_keys _ _ _ _ Hd2). right. exists line, c.
    split; [done|]. split; [by apply patterns_nested|done].
Qed.

Lemma debugger_reads_what_debug_reads_witness :
  exists d1,
    fst (session PerftDebug.line_matches ENGINE_PATH [quit]
           (init_state (prints ("a11: 1" +:+ NL +:+ "e2e4: 20")))) = Ok d1 /\
    forall k, k ∈ dict_keys d1 ->
      k ∈ dict_keys [("a11", PyStr " 1"); ("e2e4", PyStr " 20")].
Proof.
  apply (debugger_reads_what_debug_reads ENGINE_PATH ENGINE_PATH [quit] [quit]
           (init_state (prints ("a11: 1" +:+ NL +:+ "e2e4: 20")))
           (init_state (prints ("a11: 1" +:+ NL +:+ "e2e4: 20")))
           ("a11: 1" +:+ NL +:+ "e2e4: 20")).
  - reflexivity.
  - reflexivity.
  - reflexivity.
Defined.
